(** * NestJS LangGraph agent template: domain entities, in-memory
    repositories, tool registry and supervisor routing.

    A shallow embedding of the TypeScript sources, followed by the
    properties the specification states about them.

    Conventions of the embedding:
    - a JavaScript string is a [string] whose characters are code units in
      the Latin-1 range;
    - a JavaScript [number] is a rational [Q] (the finite numbers; NaN and
      the infinities are left out);
    - a JavaScript [Map] is an association list in insertion order;
    - a plain object used as a dictionary is a [gmap];
    - a method that mutates [this] takes the old object and returns the new
      one; [new Date()] and [uuidv4()] are read from explicit arguments;
    - a function that may throw returns a [Completion];
    - promises are resolved on the spot (every repository method returns
      [Promise.resolve] of a value computed synchronously). *)

From Stdlib Require Import ZArith QArith Qround Lia Ascii String.
From stdpp Require Import gmap strings list.

Local Open Scope string_scope.
Set Warnings "-register-all".

(** ** JavaScript values, strings, numbers and Maps *)

Module Js.

Definition number := Q.

(** [ToBoolean] on a number: everything but zero is truthy. *)
Definition truthy_number (x : number) : bool := negb (Qeq_bool x 0).

(** [x || d] where [x] may be undefined. *)
Definition number_or (x : option number) (d : number) : number :=
  match x with
  | Some v => if truthy_number v then v else d
  | None => d
  end.

(** [ToBoolean] on a string: everything but the empty string is truthy. *)
Definition truthy_string (s : string) : bool :=
  match s with
  | EmptyString => false
  | String _ _ => true
  end.

(** White space and line terminators below U+0100, the characters
    [String.prototype.trim] strips. *)
Definition isWhiteSpace (c : ascii) : bool :=
  match N_of_ascii c with
  | 9%N | 10%N | 11%N | 12%N | 13%N | 32%N | 160%N => true
  | _ => false
  end.

Fixpoint trimStart (s : string) : string :=
  match s with
  | EmptyString => EmptyString
  | String c s' => if isWhiteSpace c then trimStart s' else s
  end.

Fixpoint trimEnd (s : string) : string :=
  match s with
  | EmptyString => EmptyString
  | String c s' =>
      match trimEnd s' with
      | EmptyString => if isWhiteSpace c then EmptyString else String c EmptyString
      | t => String c t
      end
  end.

Definition trim (s : string) : string := trimEnd (trimStart s).

(** [String.prototype.toLowerCase] on a code unit below U+0100: the letters
    A-Z, and U+00C0-U+00DE but for the multiplication sign U+00D7. *)
Definition lowerChar (c : ascii) : ascii :=
  let n := N_of_ascii c in
  if ((65 <=? n) && (n <=? 90))%N then ascii_of_N (n + 32)
  else if ((192 <=? n) && (n <=? 222) && negb (n =? 215))%N then ascii_of_N (n + 32)
  else c.

Fixpoint toLowerCase (s : string) : string :=
  match s with
  | EmptyString => EmptyString
  | String c s' => String (lowerChar c) (toLowerCase s')
  end.

(** [s.includes(sub)]: [sub] occurs in [s] at some position. *)
Fixpoint includes (s sub : string) : bool :=
  if String.prefix sub s then true
  else match s with
       | EmptyString => false
       | String _ s' => includes s' sub
       end.

(** The dynamically typed values that flow through [any] positions. *)
Inductive JsValue : Type :=
| JsUndefined
| JsNull
| JsBool (b : bool)
| JsNumber (x : number)
| JsString (s : string)
| JsArray (items : list JsValue)
| JsObject (fields : list (string * JsValue)).

(** An [Error] instance: the class it was built from and its message. *)
Inductive ErrorClass : Type :=
| PlainError
| InvalidAgentConfigErrorClass
| ToolExecutionErrorClass
| AgentNotFoundErrorClass
| SessionNotFoundErrorClass.

Record JsError : Type := mkJsError {
  errorClass : ErrorClass;
  message : string;
}.

(** What a [throw] carries: an [Error] object or any other value. *)
Inductive Thrown : Type :=
| ThrownError (e : JsError)
| ThrownValue (v : JsValue).

(** The outcome of a call: a returned value or a thrown one. *)
Inductive Completion (A : Type) : Type :=
| Normal (a : A)
| Throw (t : Thrown).

Arguments Normal {A} a.
Arguments Throw {A} t.

(** [new Error(msg)] *)
Definition Error (msg : string) : Thrown := ThrownError (mkJsError PlainError msg).

(** ** [Array.prototype.slice] *)

(** [ToIntegerOrInfinity] on a finite number: truncation towards zero. *)
Definition ToIntegerOrInfinity (x : number) : Z :=
  if Qle_bool 0 x then Qfloor x else Qceiling x.

(** A relative index is counted from the end when negative, and clamped to
    the array. *)
Definition relativeIndex (len : Z) (i : Z) : Z :=
  if (i <? 0)%Z then Z.max (len + i) 0 else Z.min i len.

Definition slice {A : Type} (l : list A) (start finish : number) : list A :=
  let len := Z.of_nat (List.length l) in
  let k := relativeIndex len (ToIntegerOrInfinity start) in
  let final := relativeIndex len (ToIntegerOrInfinity finish) in
  let count := Z.max (final - k) 0 in
  take (Z.to_nat count) (drop (Z.to_nat k) l).

End Js.

(** ** [Map]: keys in insertion order *)

Module JsMap.

Section Map.
Context {V : Type}.

Definition t := list (string * V).

Fixpoint get (k : string) (m : t) : option V :=
  match m with
  | [] => None
  | (k', v) :: m' => if String.eqb k' k then Some v else get k m'
  end.

Definition has (k : string) (m : t) : bool :=
  match get k m with
  | Some _ => true
  | None => false
  end.

(** [set] keeps the position of a key that is already there and appends a
    new key at the end. *)
Fixpoint set (k : string) (v : V) (m : t) : t :=
  match m with
  | [] => [(k, v)]
  | (k', v') :: m' =>
      if String.eqb k' k then (k, v) :: m' else (k', v') :: set k v m'
  end.

Definition delete (k : string) (m : t) : t :=
  List.filter (fun kv => negb (String.eqb (fst kv) k)) m.

Definition values (m : t) : list V := List.map snd m.

Definition keys (m : t) : list string := List.map fst m.

Definition size (m : t) : nat := List.length m.

End Map.

Arguments t V : clear implicits.

End JsMap.


Import Js.

(** Comparisons on numbers, as booleans. *)
Definition num_lt (x y : number) : bool := negb (Qle_bool y x).
Definition num_le (x y : number) : bool := Qle_bool x y.
Definition num_ge (x y : number) : bool := Qle_bool y x.
Definition num_gt (x y : number) : bool := negb (Qle_bool x y).

(** A [Date] is its time value, in milliseconds. *)
Definition Date := Z.

(** ** agent.types.ts *)

Module AgentTypes.

Inductive AgentTypeEnum : Type := GENERAL | SPECIALIZED | MULTI_AGENT.

Inductive LLMProviderEnum : Type := OPENAI | ANTHROPIC | AZURE.

Inductive SessionStatusEnum : Type :=
| ACTIVE
| PAUSED
| COMPLETED
| FAILED
| INTERRUPTED.

#[global] Instance SessionStatusEnum_eq_dec : EqDecision SessionStatusEnum.
Proof. solve_decision. Defined.

(** Fields that the code tests for presence are options even where the
    interface declares them mandatory: the checks exist because callers
    pass objects that lack them. *)
Record LLMModelConfig : Type := mkLLMModelConfig {
  provider : LLMProviderEnum;
  modelName : option string;
  temperature : option number;
  maxTokens : option number;
  topP : option number;
}.

Record AgentConfig : Type := mkAgentConfig {
  type : option AgentTypeEnum;
  name : option string;
  description : option string;
  llmConfig : option LLMModelConfig;
  maxIterations : option number;
  timeoutMs : option number;
  systemPrompt : option string;
  enableMemory : option bool;
  enableStreaming : option bool;
  tools : option (list string);
  metadata : option (gmap string JsValue);
}.

(** [Partial<AgentConfig>]: a key is absent ([None]) or present with a
    value, which may itself be [undefined]. *)
Record PartialAgentConfig : Type := mkPartialAgentConfig {
  p_type : option (option AgentTypeEnum);
  p_name : option (option string);
  p_description : option (option string);
  p_llmConfig : option (option LLMModelConfig);
  p_maxIterations : option (option number);
  p_timeoutMs : option (option number);
  p_systemPrompt : option (option string);
  p_enableMemory : option (option bool);
  p_enableStreaming : option (option bool);
  p_tools : option (option (list string));
  p_metadata : option (option (gmap string JsValue));
}.

(** One key of an object spread [{ ...old, ...new }]. *)
Definition spread_key {A : Type} (old : A) (new : option A) : A :=
  match new with
  | Some v => v
  | None => old
  end.

(** [{ ...config, ...newConfig }] *)
Definition spread (config : AgentConfig) (newConfig : PartialAgentConfig) : AgentConfig :=
  {| type := spread_key (type config) (p_type newConfig);
     name := spread_key (name config) (p_name newConfig);
     description := spread_key (description config) (p_description newConfig);
     llmConfig := spread_key (llmConfig config) (p_llmConfig newConfig);
     maxIterations := spread_key (maxIterations config) (p_maxIterations newConfig);
     timeoutMs := spread_key (timeoutMs config) (p_timeoutMs newConfig);
     systemPrompt := spread_key (systemPrompt config) (p_systemPrompt newConfig);
     enableMemory := spread_key (enableMemory config) (p_enableMemory newConfig);
     enableStreaming := spread_key (enableStreaming config) (p_enableStreaming newConfig);
     tools := spread_key (tools config) (p_tools newConfig);
     metadata := spread_key (metadata config) (p_metadata newConfig) |}.

(** The tool's function either resolves with a value or rejects with
    whatever it threw. *)
Record ToolDefinition : Type := mkToolDefinition {
  tool_id : string;
  tool_name : string;
  tool_description : string;
  tool_schema : list (string * JsValue);
  tool_execute : JsValue -> Completion JsValue;
}.

End AgentTypes.

Import AgentTypes.

(** ** session.entity.ts *)

Module SessionEntity.

Record Session : Type := mkSession {
  sessionId : string;
  agentId : string;
  createdAt : Date;
  updatedAt : Date;
  expiresAt : option Date;
  status : SessionStatusEnum;
  metadata : gmap string JsValue;
}.

(** [!s || s.trim().length === 0] *)
Definition blank (s : string) : bool :=
  negb (truthy_string s) || Nat.eqb (String.length (trim s)) 0.

(** [new Session(agentId, sessionId?, status?, createdAt?, updatedAt?,
    metadata?, expiresAt?)]; [uuid] is what [uuidv4()] would return and
    [now] what [new Date()] would. *)
Definition new (uuid : string) (now : Date)
    (agentId0 : string) (sessionId0 : option string)
    (status0 : option SessionStatusEnum) (createdAt0 updatedAt0 : option Date)
    (metadata0 : option (gmap string JsValue)) (expiresAt0 : option Date)
  : Completion Session :=
  if blank agentId0 then Throw (Error "Agent ID cannot be empty")
  else Normal {| sessionId := default uuid sessionId0;
                 agentId := agentId0;
                 status := default ACTIVE status0;
                 createdAt := default now createdAt0;
                 updatedAt := default now updatedAt0;
                 expiresAt := expiresAt0;
                 metadata := default ∅ metadata0 |}.

Definition getSessionId (s : Session) : string := sessionId s.
Definition getAgentId (s : Session) : string := agentId s.
Definition getStatus (s : Session) : SessionStatusEnum := status s.

Definition with_status (st : SessionStatusEnum) (now : Date) (s : Session) : Session :=
  {| sessionId := sessionId s; agentId := agentId s; createdAt := createdAt s;
     updatedAt := now; expiresAt := expiresAt s; status := st;
     metadata := metadata s |}.

Definition with_metadata (md : gmap string JsValue) (s : Session) : Session :=
  {| sessionId := sessionId s; agentId := agentId s; createdAt := createdAt s;
     updatedAt := updatedAt s; expiresAt := expiresAt s; status := status s;
     metadata := md |}.

Definition isActive (now : Date) (s : Session) : bool :=
  match expiresAt s with
  | Some e => if (e <? now)%Z then false else bool_decide (status s = ACTIVE)
  | None => bool_decide (status s = ACTIVE)
  end.

Definition pause (now : Date) (s : Session) : Session :=
  if bool_decide (status s = ACTIVE) then with_status PAUSED now s else s.

Definition resume (now : Date) (s : Session) : Session :=
  if bool_decide (status s = PAUSED) then with_status ACTIVE now s else s.

Definition complete (now : Date) (s : Session) : Session :=
  if bool_decide (status s = ACTIVE) || bool_decide (status s = PAUSED)
  then with_status COMPLETED now s
  else s.

(** [if (reason) this.metadata[key] = reason] *)
Definition note_reason (key : string) (reason : option string) (s : Session) : Session :=
  match reason with
  | Some r =>
      if truthy_string r then with_metadata (<[key := JsString r]> (metadata s)) s
      else s
  | None => s
  end.

Definition fail (now : Date) (reason : option string) (s : Session) : Session :=
  note_reason "failureReason" reason (with_status FAILED now s).

Definition interrupt (now : Date) (reason : option string) (s : Session) : Session :=
  note_reason "interruptReason" reason (with_status INTERRUPTED now s).

Definition getExpiresAt (s : Session) : option Date := expiresAt s.

Definition setExpiration (now : Date) (e : Date) (s : Session) : Session :=
  {| sessionId := sessionId s; agentId := agentId s; createdAt := createdAt s;
     updatedAt := now; expiresAt := Some e; status := status s;
     metadata := metadata s |}.

End SessionEntity.

(** ** agent.entity.ts *)

Module AgentEntity.

Record Agent : Type := mkAgent {
  id : string;
  createdAt : Date;
  updatedAt : Date;
  config : AgentConfig;
  isActive : bool;
}.

(** [!config.name || config.name.trim().length === 0] *)
Definition name_blank (n : option string) : bool :=
  match n with
  | None => true
  | Some s => negb (truthy_string s) || Nat.eqb (String.length (trim s)) 0
  end.

(** [!config.llmConfig || !config.llmConfig.modelName] *)
Definition model_missing (c : option LLMModelConfig) : bool :=
  match c with
  | None => true
  | Some l =>
      match modelName l with
      | None => true
      | Some m => negb (truthy_string m)
      end
  end.

(** [config.maxIterations && config.maxIterations > 0 &&
    config.maxIterations < 1] *)
Definition maxIterations_guard (m : option number) : bool :=
  match m with
  | None => false
  | Some x => truthy_number x && num_gt x 0%Q && num_lt x 1%Q
  end.

(** [config.timeoutMs && config.timeoutMs <= 0] *)
Definition timeoutMs_guard (t : option number) : bool :=
  match t with
  | None => false
  | Some x => truthy_number x && num_le x 0%Q
  end.

Definition validateConfig (config : AgentConfig) : Completion unit :=
  if name_blank (name config) then Throw (Error "Agent name cannot be empty")
  else if negb (bool_decide (is_Some (type config)))
  then Throw (Error "Agent type is required")
  else if model_missing (llmConfig config)
  then Throw (Error "LLM configuration with model name is required")
  else if maxIterations_guard (maxIterations config)
  then Throw (Error "Max iterations must be greater than 0")
  else if timeoutMs_guard (timeoutMs config)
  then Throw (Error "Timeout must be greater than 0")
  else Normal tt.

(** [new Agent(config, id?, isActive?, createdAt?, updatedAt?)] *)
Definition new (uuid : string) (now : Date) (config0 : AgentConfig)
    (id0 : option string) (isActive0 : option bool)
    (createdAt0 updatedAt0 : option Date) : Completion Agent :=
  match validateConfig config0 with
  | Throw t => Throw t
  | Normal _ =>
      Normal {| id := default uuid id0;
                config := config0;
                isActive := default true isActive0;
                createdAt := default now createdAt0;
                updatedAt := default now updatedAt0 |}
  end.

Definition getId (a : Agent) : string := id a.
Definition getConfig (a : Agent) : AgentConfig := config a.
Definition getName (a : Agent) : option string := name (config a).
Definition getType (a : Agent) : option AgentTypeEnum := type (config a).
Definition isAgentActive (a : Agent) : bool := isActive a.

Definition activate (now : Date) (a : Agent) : Agent :=
  if negb (isActive a)
  then {| id := id a; createdAt := createdAt a; updatedAt := now;
          config := config a; isActive := true |}
  else a.

Definition deactivate (now : Date) (a : Agent) : Agent :=
  if isActive a
  then {| id := id a; createdAt := createdAt a; updatedAt := now;
          config := config a; isActive := false |}
  else a.

(** On a throw the agent is left as it was. *)
Definition updateConfig (now : Date) (newConfig : PartialAgentConfig) (a : Agent)
  : Completion Agent :=
  let mergedConfig := spread (config a) newConfig in
  match validateConfig mergedConfig with
  | Throw t => Throw t
  | Normal _ =>
      Normal {| id := id a; createdAt := createdAt a; updatedAt := now;
                config := mergedConfig; isActive := isActive a |}
  end.

End AgentEntity.

(** ** common.types.ts *)

Module CommonTypes.

Inductive SortOrder : Type := ASC | DESC.

(** [skip] and [take] are options: the repositories read them through
    [cursor?.skip || 0] and [cursor?.take || 10]. *)
Record PageCursor : Type := mkPageCursor {
  skip : option number;
  take : option number;
  orderBy : option string;
  order : option SortOrder;
}.

Record PaginatedResponse (T : Type) : Type := mkPaginatedResponse {
  data : list T;
  total : nat;
  r_skip : number;
  r_take : number;
}.

Arguments mkPaginatedResponse {T} _ _ _ _.
Arguments data {T} _.
Arguments total {T} _.
Arguments r_skip {T} _.
Arguments r_take {T} _.

(** [cursor?.skip] and [cursor?.take] *)
Definition cursor_skip (cursor : option PageCursor) : option number :=
  match cursor with
  | Some c => skip c
  | None => None
  end.

Definition cursor_take (cursor : option PageCursor) : option number :=
  match cursor with
  | Some c => take c
  | None => None
  end.

End CommonTypes.

Import CommonTypes.

(** ** Domain errors *)

Module Errors.

Definition dquote : string := String (ascii_of_N 34) EmptyString.

(** A template literal prints [undefined] for a missing value. *)
Definition interpolate (s : option string) : string := default "undefined" s.

Definition InvalidAgentConfigError (reason : string) : Thrown :=
  ThrownError (mkJsError InvalidAgentConfigErrorClass
                 ("Invalid agent configuration: " +:+ reason)).

Definition ToolExecutionError (toolName reason : string) : Thrown :=
  ThrownError (mkJsError ToolExecutionErrorClass
                 ("Tool " +:+ dquote +:+ toolName +:+ dquote
                  +:+ " execution failed: " +:+ reason)).

Definition AgentNotFoundError (agentId : string) : Thrown :=
  ThrownError (mkJsError AgentNotFoundErrorClass
                 ("Agent with ID " +:+ dquote +:+ agentId +:+ dquote +:+ " not found")).

Definition isInvalidAgentConfigError (t : Thrown) : bool :=
  match t with
  | ThrownError {| errorClass := InvalidAgentConfigErrorClass |} => true
  | _ => false
  end.

Definition isToolExecutionError (t : Thrown) : bool :=
  match t with
  | ThrownError {| errorClass := ToolExecutionErrorClass |} => true
  | _ => false
  end.

End Errors.

Import Errors.

(** ** in-memory-agent.repository.ts *)

Module InMemoryAgentRepository.

Import AgentEntity.

(** The repository is its one field, [agents]. *)
Definition t := JsMap.t Agent.

Definition empty : t := [].

(** [this.agents.get(agentId) || null]: an agent object is truthy. *)
Definition findById (agentId : string) (agents : t) : option Agent :=
  JsMap.get agentId agents.

(** The first agent, in the Map's order, with [agent.getName() === name];
    [name0] is an option because [===] compares with [undefined] as well. *)
Definition findByName (name0 : option string) (agents : t) : option Agent :=
  List.find (fun agent => bool_decide (getName agent = name0)) (JsMap.values agents).

Definition findAll (cursor : option PageCursor) (agents : t) : PaginatedResponse Agent :=
  let all := JsMap.values agents in
  let skip := number_or (cursor_skip cursor) 0%Q in
  let take := number_or (cursor_take cursor) 10%Q in
  let paginatedAgents := slice all skip (skip + take)%Q in
  {| data := paginatedAgents; total := List.length all; r_skip := skip; r_take := take |}.

Definition save (agent : Agent) (agents : t) : t :=
  JsMap.set (getId agent) agent agents.

Definition update (agent : Agent) (agents : t) : Completion t :=
  if negb (JsMap.has (getId agent) agents)
  then Throw (Error ("Agent with ID " +:+ getId agent +:+ " not found"))
  else Normal (JsMap.set (getId agent) agent agents).

Definition delete (agentId : string) (agents : t) : t :=
  JsMap.delete agentId agents.

Definition exists_ (agentId : string) (agents : t) : bool :=
  JsMap.has agentId agents.

Definition count (agents : t) : nat := JsMap.size agents.

End InMemoryAgentRepository.

(** ** in-memory-session.repository.ts *)

Module InMemorySessionRepository.

Import SessionEntity.

Definition t := JsMap.t Session.

Definition empty : t := [].

Definition findById (sessionId : string) (sessions : t) : option Session :=
  JsMap.get sessionId sessions.

Definition paginate (sessions : list Session) (cursor : option PageCursor)
  : PaginatedResponse Session :=
  let skip := number_or (cursor_skip cursor) 0%Q in
  let take := number_or (cursor_take cursor) 10%Q in
  let paginatedSessions := slice sessions skip (skip + take)%Q in
  {| data := paginatedSessions; total := List.length sessions;
     r_skip := skip; r_take := take |}.

Definition findByAgentId (agentId : string) (cursor : option PageCursor) (sessions : t)
  : PaginatedResponse Session :=
  paginate
    (List.filter (fun s => String.eqb (getAgentId s) agentId) (JsMap.values sessions))
    cursor.

Definition findByStatus (status : SessionStatusEnum) (cursor : option PageCursor)
    (sessions : t) : PaginatedResponse Session :=
  paginate
    (List.filter (fun s => bool_decide (getStatus s = status)) (JsMap.values sessions))
    cursor.

Definition findActiveByAgentId (now : Date) (agentId : string) (sessions : t)
  : list Session :=
  List.filter (fun s => String.eqb (getAgentId s) agentId && isActive now s)
    (JsMap.values sessions).

Definition save (session : Session) (sessions : t) : t :=
  JsMap.set (getSessionId session) session sessions.

Definition update (session : Session) (sessions : t) : Completion t :=
  if negb (JsMap.has (getSessionId session) sessions)
  then Throw (Error ("Session with ID " +:+ getSessionId session +:+ " not found"))
  else Normal (JsMap.set (getSessionId session) session sessions).

Definition delete (sessionId : string) (sessions : t) : t :=
  JsMap.delete sessionId sessions.

Definition exists_ (sessionId : string) (sessions : t) : bool :=
  JsMap.has sessionId sessions.

End InMemorySessionRepository.

(** ** create-agent.usecase.ts, over the in-memory repository *)

Module CreateAgentUseCase.

Import AgentEntity.

(** [config] is [None] when the caller passes [null] or [undefined]. *)
Definition validateConfig (config : option AgentConfig) : Completion unit :=
  match config with
  | None => Throw (InvalidAgentConfigError "Configuration must be an object")
  | Some c =>
      if name_blank (name c)
      then Throw (InvalidAgentConfigError "Agent name is required")
      else if negb (bool_decide (is_Some (type c)))
      then Throw (InvalidAgentConfigError "Agent type is required")
      else match llmConfig c with
           | None => Throw (InvalidAgentConfigError "LLM configuration is required")
           | Some l =>
               match modelName l with
               | None => Throw (InvalidAgentConfigError "LLM model name is required")
               | Some m =>
                   if negb (truthy_string m)
                   then Throw (InvalidAgentConfigError "LLM model name is required")
                   else Normal tt
               end
           end
  end.

(** [catch (error) { if (error instanceof Error) throw new
    InvalidAgentConfigError(error.message); throw error; }] *)
Definition rethrow (t : Thrown) : Thrown :=
  match t with
  | ThrownError e => InvalidAgentConfigError (message e)
  | ThrownValue _ => t
  end.

(** [execute] returns its completion and the repository it leaves. The
    second branch is dead: [validateConfig] throws on a missing [config]. *)
Definition execute (uuid : string) (now : Date) (config : option AgentConfig)
    (repo : InMemoryAgentRepository.t)
  : Completion Agent * InMemoryAgentRepository.t :=
  match validateConfig config, config with
  | Throw t, _ => (Throw t, repo)
  | Normal _, None => (Throw (InvalidAgentConfigError "Configuration must be an object"), repo)
  | Normal _, Some c =>
      match InMemoryAgentRepository.findByName (name c) repo with
      | Some _ =>
          (Throw (InvalidAgentConfigError
                    ("Agent with name " +:+ dquote +:+ interpolate (name c) +:+ dquote
                     +:+ " already exists")), repo)
      | None =>
          match AgentEntity.new uuid now c None None None None with
          | Normal agent => (Normal agent, InMemoryAgentRepository.save agent repo)
          | Throw t => (Throw (rethrow t), repo)
          end
      end
  end.

End CreateAgentUseCase.

(** ** tool-registry.service.ts *)

Module ToolRegistryService.

Record LLMTool : Type := mkLLMTool {
  llm_name : string;
  llm_description : string;
  invoke : JsValue -> Completion JsValue;
}.

Record t : Type := mkRegistry {
  tools : JsMap.t ToolDefinition;
  llmTools : list LLMTool;
}.

Definition empty : t := {| tools := []; llmTools := [] |}.

Section Registry.

(** [JSON.stringify] and [String] are the host's. *)
Variable JSON_stringify : JsValue -> string.
Variable String_ : JsValue -> string.

(** [error instanceof Error ? error.message : String(error)] *)
Definition reason_of (t : Thrown) : string :=
  match t with
  | ThrownError e => message e
  | ThrownValue v => String_ v
  end.

(** The function handed to [tool(...)]. *)
Definition llm_invoke (toolDef : ToolDefinition) (input : JsValue) : Completion JsValue :=
  match tool_execute toolDef input with
  | Normal result => Normal (JsString (JSON_stringify result))
  | Throw e => Throw (ToolExecutionError (tool_name toolDef) (reason_of e))
  end.

Definition register (toolDef : ToolDefinition) (r : t) : t :=
  let llmTool := {| llm_name := tool_name toolDef;
                    llm_description := tool_description toolDef;
                    invoke := llm_invoke toolDef |} in
  {| tools := JsMap.set (tool_id toolDef) toolDef (tools r);
     llmTools := llmTools r ++ [llmTool] |}.

(** [this.tools.get(toolId) || null] *)
Definition getTool (toolId : string) (r : t) : option ToolDefinition :=
  JsMap.get toolId (tools r).


Definition getAllTools (r : t) : list ToolDefinition := JsMap.values (tools r).


Definition toolExists (toolId : string) (r : t) : bool := JsMap.has toolId (tools r).

(** The definition is looked up after the deletion. *)
Definition unregister (toolId : string) (r : t) : bool * t :=
  let existed := JsMap.has toolId (tools r) in
  if existed then
    let tools1 := JsMap.delete toolId (tools r) in
    let toolDef := JsMap.get toolId tools1 in
    let llmTools1 :=
      match toolDef with
      | Some d =>
          List.filter (fun t0 => negb (String.eqb (llm_name t0) (tool_name d))) (llmTools r)
      | None => llmTools r
      end in
    (existed, {| tools := tools1; llmTools := llmTools1 |})
  else (existed, r).

Definition execute (toolId : string) (input : JsValue) (r : t) : Completion JsValue :=
  match getTool toolId r with
  | None => Throw (ToolExecutionError toolId "Tool not found")
  | Some toolDef =>
      match tool_execute toolDef input with
      | Normal v => Normal v
      | Throw e => Throw (ToolExecutionError (tool_name toolDef) (reason_of e))
      end
  end.

Definition getToolSchema (toolId : string) (r : t) : option (list (string * JsValue)) :=
  match getTool toolId r with
  | Some toolDef => Some (tool_schema toolDef)
  | None => None
  end.

Definition getToolsAsLLMTools (r : t) : list LLMTool := llmTools r.

End Registry.

End ToolRegistryService.

(** ** multi-agent.graph.ts *)

Module MultiAgentGraph.

Record WorkerAgent : Type := mkWorkerAgent {
  run : string -> Completion JsValue;
}.

(** The part of a [BaseMessage] the graph reads. *)
Record BaseMessage : Type := mkBaseMessage {
  content : JsValue;
}.

Record AgentState : Type := mkAgentState {
  messages : list BaseMessage;
  query : string;
  iterations : option number;
  error : option string;
  output : option string;
}.

Record t : Type := mkGraph {
  maxIterations : number;
  workers : JsMap.t WorkerAgent;
}.

(** [constructor(supervisorLLM, maxIterations = 10)] *)
Definition new (maxIterations0 : option number) : t :=
  {| maxIterations := default 10%Q maxIterations0; workers := [] |}.

Definition registerWorker (name0 : string) (agent : WorkerAgent) (g : t) : t :=
  {| maxIterations := maxIterations g;
     workers := JsMap.set name0 agent (workers g) |}.

Section Routing.

Variable JSON_stringify : JsValue -> string.

(** [state.messages[state.messages.length - 1]?.content] *)
Definition lastContent (state : AgentState) : JsValue :=
  match last (messages state) with
  | Some m => content m
  | None => JsUndefined
  end.

(** [v ?? ''] *)
Definition orEmptyString (v : JsValue) : JsValue :=
  match v with
  | JsUndefined | JsNull => JsString ""
  | _ => v
  end.

(** The lower-cased text the routing loop searches. *)
Definition routedText (state : AgentState) : string :=
  let contentValue := lastContent state in
  toLowerCase
    match contentValue with
    | JsString s => s
    | _ => JSON_stringify (orEmptyString contentValue)
    end.

Definition routeWork (state : AgentState) (g : t) : string :=
  let content0 := routedText state in
  if num_ge (default 0%Q (iterations state)) (maxIterations g) then "end"
  else match List.find (fun workerName => includes content0 (toLowerCase workerName))
               (JsMap.keys (workers g)) with
       | Some workerName => workerName
       | None => "end"
       end.

End Routing.

End MultiAgentGraph.

(** * Specification predicates *)

Module Spec.

Import AgentEntity.

(** [sub] occurs in [s] as a substring. *)
Definition occurs_in (sub s : string) : Prop :=
  exists pre post, s = pre +:+ sub +:+ post.

(** The invariant of an agent's configuration: a name that is not blank,
    a type, and a model name that is not empty. *)
Definition config_invariant (c : AgentConfig) : Prop :=
  (exists n, name c = Some n /\ trim n <> "")
  /\ is_Some (type c)
  /\ (exists l m, llmConfig c = Some l /\ modelName l = Some m /\ m <> "").

(** The page a cursor selects from [items]: the defaults stand in for a
    field that is absent or zero. *)
Definition is_page {T : Type} (items : list T) (cursor : option PageCursor)
    (r : PaginatedResponse T) : Prop :=
  let skip := number_or (cursor_skip cursor) 0%Q in
  let take := number_or (cursor_take cursor) 10%Q in
  total r = List.length items
  /\ r_skip r = skip
  /\ r_take r = take
  /\ data r = slice items skip (skip + take)%Q
  /\ forall s t : Z,
       (0 <= s)%Z -> (0 <= t)%Z -> (skip == inject_Z s)%Q -> (take == inject_Z t)%Q ->
       data r = firstn (Z.to_nat t) (skipn (Z.to_nat s) items).

(** Operations on a tool registry, to speak of what happens between a
    registration and a later removal. *)
Inductive RegistryOp : Type :=
| OpRegister (toolDef : ToolDefinition)
| OpUnregister (toolId : string).

Definition runOp (J S : JsValue -> string) (op : RegistryOp) (r : ToolRegistryService.t)
  : ToolRegistryService.t :=
  match op with
  | OpRegister d => ToolRegistryService.register J S d r
  | OpUnregister i => snd (ToolRegistryService.unregister i r)
  end.

Definition runOps (J S : JsValue -> string) (ops : list RegistryOp)
    (r : ToolRegistryService.t) : ToolRegistryService.t :=
  fold_left (fun acc op => runOp J S op acc) ops r.

Definition unregisters (toolId : string) (op : RegistryOp) : Prop :=
  match op with
  | OpUnregister i => i = toolId
  | OpRegister _ => False
  end.

(** What holds from a registration of [toolDef] until its id is removed. *)
Definition still_registered (toolDef : ToolDefinition) (r : ToolRegistryService.t) : Prop :=
  JsMap.has (tool_id toolDef) (ToolRegistryService.tools r) = true
  /\ exists t0, In t0 (ToolRegistryService.llmTools r)
                /\ ToolRegistryService.llm_name t0 = tool_name toolDef.

End Spec.

Import Spec.

(** * Sample data *)

Module Samples.

Import AgentEntity SessionEntity.

Definition sample_llm : LLMModelConfig :=
  {| provider := OPENAI; modelName := Some "gpt-4"; temperature := None;
     maxTokens := None; topP := None |}.

(** The configuration the repository's tests build. *)
Definition sample_config : AgentConfig :=
  {| type := Some GENERAL; name := Some "Test Agent"; description := None;
     llmConfig := Some sample_llm; maxIterations := None; timeoutMs := None;
     systemPrompt := None; enableMemory := None; enableStreaming := None;
     tools := None; AgentTypes.metadata := None |}.

Definition with_limits (m t : option number) (c : AgentConfig) : AgentConfig :=
  {| type := type c; name := name c; description := description c;
     llmConfig := llmConfig c; maxIterations := m; timeoutMs := t;
     systemPrompt := systemPrompt c; enableMemory := enableMemory c;
     enableStreaming := enableStreaming c; tools := tools c;
     AgentTypes.metadata := AgentTypes.metadata c |}.

Definition with_name (n : option string) (c : AgentConfig) : AgentConfig :=
  {| type := type c; name := n; description := description c;
     llmConfig := llmConfig c; maxIterations := maxIterations c;
     timeoutMs := timeoutMs c;
     systemPrompt := systemPrompt c; enableMemory := enableMemory c;
     enableStreaming := enableStreaming c; tools := tools c;
     AgentTypes.metadata := AgentTypes.metadata c |}.

Definition no_update : PartialAgentConfig :=
  {| p_type := None; p_name := None; p_description := None; p_llmConfig := None;
     p_maxIterations := None; p_timeoutMs := None; p_systemPrompt := None;
     p_enableMemory := None; p_enableStreaming := None; p_tools := None;
     p_metadata := None |}.

(** [{ maxIterations: 20 }] *)
Definition update_maxIterations_20 : PartialAgentConfig :=
  {| p_type := None; p_name := None; p_description := None; p_llmConfig := None;
     p_maxIterations := Some (Some 20%Q); p_timeoutMs := None; p_systemPrompt := None;
     p_enableMemory := None; p_enableStreaming := None; p_tools := None;
     p_metadata := None |}.

Definition sample_agent : Agent :=
  {| id := "test-id"; AgentEntity.createdAt := 1%Z; AgentEntity.updatedAt := 1%Z;
     config := sample_config; AgentEntity.isActive := true |}.

Definition second_agent : Agent :=
  {| id := "test-id-2"; AgentEntity.createdAt := 2%Z; AgentEntity.updatedAt := 2%Z;
     config := with_name (Some "Second Agent") sample_config;
     AgentEntity.isActive := true |}.

Definition third_agent : Agent :=
  {| id := "test-id-3"; AgentEntity.createdAt := 3%Z; AgentEntity.updatedAt := 3%Z;
     config := with_name (Some "Third Agent") sample_config;
     AgentEntity.isActive := false |}.

Definition failed_session : Session :=
  {| sessionId := "s-1"; agentId := "test-id"; SessionEntity.createdAt := 1%Z;
     SessionEntity.updatedAt := 1%Z; expiresAt := None; status := FAILED;
     SessionEntity.metadata := ∅ |}.

Definition active_session : Session :=
  {| sessionId := "s-2"; agentId := "test-id"; SessionEntity.createdAt := 1%Z;
     SessionEntity.updatedAt := 1%Z; expiresAt := None; status := ACTIVE;
     SessionEntity.metadata := ∅ |}.

(** [{ skip: 0, take: 0 }] *)
Definition cursor_take_zero : PageCursor :=
  {| skip := Some 0%Q; take := Some 0%Q; orderBy := None; order := None |}.

(** [{ skip: 1, take: 2 }] *)
Definition cursor_1_2 : PageCursor :=
  {| skip := Some 1%Q; take := Some 2%Q; orderBy := None; order := None |}.

(** A tool that echoes its input, and one that always throws. *)
Definition echo_tool : ToolDefinition :=
  {| tool_id := "echo-id"; tool_name := "echo"; tool_description := "Echo";
     tool_schema := []; tool_execute := fun input => Normal input |}.

Definition failing_tool : ToolDefinition :=
  {| tool_id := "boom-id"; tool_name := "boom"; tool_description := "Boom";
     tool_schema := []; tool_execute := fun _ => Throw (Error "boom") |}.

(** Stand-ins for the host's [JSON.stringify] and [String]. *)
Definition show (v : JsValue) : string :=
  match v with
  | JsString s => s
  | _ => "?"
  end.

Definition idle_worker : MultiAgentGraph.WorkerAgent :=
  {| MultiAgentGraph.run := fun _ => Normal JsNull |}.

End Samples.

(** * The rest of the entities, repositories and use cases *)

(** ** agent-id.ts *)

Module AgentIdValue.

Record AgentId : Type := mkAgentId {
  value : string;
}.

(** [new AgentId(value)] *)
Definition new (value0 : string) : Completion AgentId :=
  if negb (truthy_string value0) || Nat.eqb (String.length (trim value0)) 0
  then Throw (Error "AgentId cannot be empty")
  else Normal {| value := value0 |}.

Definition getValue (a : AgentId) : string := value a.

Definition equals (a other : AgentId) : bool := String.eqb (value a) (value other).

Definition toString (a : AgentId) : string := value a.

Definition toJSON (a : AgentId) : string := value a.

End AgentIdValue.

(** ** session.entity.ts, the metadata methods *)

Module SessionMetadata.

Import SessionEntity.

(** [{ ...this.metadata }] *)
Definition getMetadata (s : Session) : gmap string JsValue := metadata s.

(** [this.metadata = { ...this.metadata, ...newMetadata }]: the keys of
    [newMetadata] win. *)
Definition updateMetadata (now : Date) (newMetadata : gmap string JsValue) (s : Session)
  : Session :=
  {| sessionId := sessionId s; agentId := agentId s; createdAt := createdAt s;
     updatedAt := now; expiresAt := expiresAt s; status := status s;
     metadata := newMetadata ∪ metadata s |}.

(** A call of one of the mutating methods, with the time it reads. *)
Inductive SessionCall : Type :=
| CallPause (now : Date)
| CallResume (now : Date)
| CallComplete (now : Date)
| CallFail (now : Date) (reason : option string)
| CallInterrupt (now : Date) (reason : option string)
| CallSetExpiration (now : Date) (expiresAt0 : Date)
| CallUpdateMetadata (now : Date) (newMetadata : gmap string JsValue).

Definition call (c : SessionCall) (s : Session) : Session :=
  match c with
  | CallPause now => pause now s
  | CallResume now => resume now s
  | CallComplete now => complete now s
  | CallFail now reason => fail now reason s
  | CallInterrupt now reason => interrupt now reason s
  | CallSetExpiration now e => setExpiration now e s
  | CallUpdateMetadata now md => updateMetadata now md s
  end.

Definition calls (cs : list SessionCall) (s : Session) : Session :=
  fold_left (fun acc c => call c acc) cs s.

(** The calls that go through a status guard. *)
Definition guarded (c : SessionCall) : Prop :=
  match c with
  | CallPause _ | CallResume _ | CallComplete _ => True
  | _ => False
  end.

End SessionMetadata.

(** ** in-memory-session.repository.ts, the expiry sweep *)

Module SessionSweep.

Import SessionEntity.

(** [expiresAt && expiresAt < now] *)
Definition expired (now : Date) (s : Session) : bool :=
  match getExpiresAt s with
  | Some e => (e <? now)%Z
  | None => false
  end.

(** The [for ... of this.sessions.entries()] loop; deleting the entry
    under the cursor does not disturb the iteration over the others. *)
Fixpoint sweep (now : Date) (entries : list (string * Session))
    (sessions : InMemorySessionRepository.t) (count : nat)
  : nat * InMemorySessionRepository.t :=
  match entries with
  | [] => (count, sessions)
  | (sessionId0, session) :: rest =>
      if expired now session
      then sweep now rest (JsMap.delete sessionId0 sessions) (S count)
      else sweep now rest sessions count
  end.

Definition deleteExpiredSessions (now : Date) (sessions : InMemorySessionRepository.t)
  : nat * InMemorySessionRepository.t :=
  sweep now sessions sessions 0.

End SessionSweep.

(** ** get-agent.usecase.ts, over the in-memory repository *)

Module GetAgentUseCase.

Definition execute (agentId : string) (repo : InMemoryAgentRepository.t)
  : Completion AgentEntity.Agent :=
  match InMemoryAgentRepository.findById agentId repo with
  | Some agent => Normal agent
  | None => Throw (AgentNotFoundError agentId)
  end.

End GetAgentUseCase.

(** ** Histories of repository calls *)

Module History.

Import AgentEntity.

(** A call that changes the agent repository. *)
Inductive AgentRepoCall : Type :=
| CallSave (agent : Agent)
| CallUpdate (agent : Agent)
| CallDelete (agentId : string).

(** A throwing [update] leaves the repository as it was. *)
Definition agentRepoCall (c : AgentRepoCall) (agents : InMemoryAgentRepository.t)
  : InMemoryAgentRepository.t :=
  match c with
  | CallSave a => InMemoryAgentRepository.save a agents
  | CallUpdate a =>
      match InMemoryAgentRepository.update a agents with
      | Normal agents' => agents'
      | Throw _ => agents
      end
  | CallDelete i => InMemoryAgentRepository.delete i agents
  end.

Definition agentRepoCalls (cs : list AgentRepoCall) (agents : InMemoryAgentRepository.t)
  : InMemoryAgentRepository.t :=
  fold_left (fun acc c => agentRepoCall c acc) cs agents.

(** Every entry sits under its agent's own id, and no id occurs twice. *)
Definition keyed_by_id (agents : InMemoryAgentRepository.t) : Prop :=
  NoDup (JsMap.keys agents)
  /\ Forall (fun kv => getId (snd kv) = fst kv) agents.

(** A cursor with whole numbers in both fields. *)
Definition cursor_of (s t : Z) : PageCursor :=
  {| skip := Some (inject_Z s); take := Some (inject_Z t);
     orderBy := None; order := None |}.

End History.

(** ** Histories of registry calls *)

Module RegistryHistory.

Definition is_register (op : RegistryOp) : bool :=
  match op with
  | OpRegister _ => true
  | OpUnregister _ => false
  end.

(** How many of the calls are registrations. *)
Definition registrations (ops : list RegistryOp) : nat :=
  List.length (List.filter is_register ops).

(** Every definition sits under its own id, and no id occurs twice. *)
Definition keyed_by_tool_id (r : ToolRegistryService.t) : Prop :=
  NoDup (JsMap.keys (ToolRegistryService.tools r))
  /\ Forall (fun kv => tool_id (snd kv) = fst kv) (ToolRegistryService.tools r).

End RegistryHistory.

(** ** openai-llm.service.ts *)

Module OpenAILLMService.

(** An instance of [ChatOpenAI] is told apart by the options it was built
    from; the constructor of the client library is taken not to throw. *)
Record ChatOpenAI : Type := mkChatOpenAI {
  llm_apiKey : string;
  llm_model : option string;
  llm_temperature : number;
  llm_maxTokens : option number;
  llm_topP : option number;
  llm_timeout : number;
  llm_maxRetries : number;
}.

Record t : Type := mkService {
  apiKey : string;
  llmCache : JsMap.t ChatOpenAI;
}.

(** [constructor()], with the value of [process.env.OPENAI_API_KEY]. *)
Definition new (env_key : option string) : Completion t :=
  match env_key with
  | Some k =>
      if truthy_string k then Normal {| apiKey := k; llmCache := [] |}
      else Throw (Error "OPENAI_API_KEY environment variable is not set")
  | None => Throw (Error "OPENAI_API_KEY environment variable is not set")
  end.

(** The string value of a provider. *)
Definition provider_string (p : LLMProviderEnum) : string :=
  match p with
  | OPENAI => "openai"
  | ANTHROPIC => "anthropic"
  | AZURE => "azure"
  end.

Definition validateConfig (config : LLMModelConfig) : Completion LLMModelConfig :=
  if negb (match modelName config with Some m => truthy_string m | None => false end)
  then Throw (Error "Model name is required")
  else if negb (match provider config with OPENAI => true | _ => false end)
  then Throw (Error ("Invalid provider: " +:+ provider_string (provider config)
                     +:+ ". This service only supports OpenAI."))
  else if match temperature config with
          | Some x => num_lt x 0%Q || num_gt x 2%Q
          | None => false
          end
  then Throw (Error "Temperature must be between 0 and 2")
  else if match maxTokens config with
          | Some x => num_le x 0%Q
          | None => false
          end
  then Throw (Error "maxTokens must be a positive number")
  else if match topP config with
          | Some x => num_lt x 0%Q || num_gt x 1%Q
          | None => false
          end
  then Throw (Error "topP must be between 0 and 1")
  else Normal config.

Section Service.

(** How a template literal prints a number is the host's. *)
Variable Number_toString : number -> string.

(** [x ?? 'default'] inside the template. *)
Definition or_default (x : option number) : string :=
  match x with
  | Some v => Number_toString v
  | None => "default"
  end.

Definition generateCacheKey (config : LLMModelConfig) : string :=
  provider_string (provider config) +:+ ":" +:+ interpolate (modelName config)
  +:+ ":" +:+ or_default (temperature config)
  +:+ ":" +:+ or_default (maxTokens config).

(** [error instanceof Error ? error.message : 'Unknown error'] *)
Definition failure_message (e : Thrown) : string :=
  match e with
  | ThrownError err => message err
  | ThrownValue _ => "Unknown error"
  end.

(** [getLLM] returns its completion and the service it leaves. *)
Definition getLLM (config : LLMModelConfig) (svc : t) : Completion ChatOpenAI * t :=
  let cacheKey := generateCacheKey config in
  match JsMap.get cacheKey (llmCache svc) with
  | Some cachedLlm => (Normal cachedLlm, svc)
  | None =>
      match validateConfig config with
      | Throw e =>
          (Throw (Error ("Failed to initialize LLM: " +:+ failure_message e)), svc)
      | Normal validatedConfig =>
          let llm := {| llm_apiKey := apiKey svc;
                        llm_model := modelName validatedConfig;
                        llm_temperature := default (7 # 10)%Q (temperature validatedConfig);
                        llm_maxTokens := maxTokens validatedConfig;
                        llm_topP := topP validatedConfig;
                        llm_timeout := 60000%Q;
                        llm_maxRetries := 3%Q |} in
          (Normal llm,
           {| apiKey := apiKey svc;
              llmCache := JsMap.set cacheKey llm (llmCache svc) |})
      end
  end.

Definition clearCache (svc : t) : t := {| apiKey := apiKey svc; llmCache := [] |}.

End Service.

Definition listModels (_provider : string) : list string :=
  ["gpt-4-turbo"; "gpt-4"; "gpt-3.5-turbo"; "gpt-3.5-turbo-16k"].

(** Two configurations that differ at most in [topP]. *)
Definition same_but_topP (c1 c2 : LLMModelConfig) : Prop :=
  provider c1 = provider c2 /\ modelName c1 = modelName c2
  /\ temperature c1 = temperature c2 /\ maxTokens c1 = maxTokens c2.

End OpenAILLMService.

(** ** agent-state.ts *)

Module AgentStateAnnotation.

(** [ToBoolean] on a value. *)
Definition truthy (v : JsValue) : bool :=
  match v with
  | JsUndefined | JsNull => false
  | JsBool b => b
  | JsNumber x => truthy_number x
  | JsString s => truthy_string s
  | JsArray _ | JsObject _ => true
  end.

Section State.

(** The class of messages differs from graph to graph. *)
Variable Msg : Type.

Record AgentState : Type := mkAgentState {
  messages : list Msg;
  query : string;
  toolResults : gmap string JsValue;
  metadata : gmap string JsValue;
  iterations : option number;
  error : option string;
  output : option string;
}.

(** What a node returns, a [Partial<AgentState>]: [None] is a key the node
    leaves out; [error] and [output] may be set to [null]. *)
Record Update : Type := mkUpdate {
  u_messages : option (list Msg);
  u_query : option string;
  u_toolResults : option (gmap string JsValue);
  u_metadata : option (gmap string JsValue);
  u_iterations : option number;
  u_error : option (option string);
  u_output : option (option string);
}.

(** [{}] *)
Definition empty_update : Update :=
  {| u_messages := None; u_query := None; u_toolResults := None; u_metadata := None;
     u_iterations := None; u_error := None; u_output := None |}.

(** The reducers of the annotation, applied to the keys an update holds:
    messages are appended, a non-empty query replaces the query, tool
    results and metadata are merged with the update's keys winning, and
    the other three are overwritten. *)
Definition reduce (state : AgentState) (u : Update) : AgentState :=
  {| messages :=
       match u_messages u with
       | Some y => (messages state ++ y)%list
       | None => messages state
       end;
     query :=
       match u_query u with
       | Some y => if truthy_string y then y else query state
       | None => query state
       end;
     toolResults :=
       match u_toolResults u with
       | Some y => y ∪ toolResults state
       | None => toolResults state
       end;
     metadata :=
       match u_metadata u with
       | Some y => y ∪ metadata state
       | None => metadata state
       end;
     iterations :=
       match u_iterations u with
       | Some y => Some y
       | None => iterations state
       end;
     error :=
       match u_error u with
       | Some y => y
       | None => error state
       end;
     output :=
       match u_output u with
       | Some y => y
       | None => output state
       end |}.

End State.

Arguments messages {Msg} _.
Arguments query {Msg} _.
Arguments toolResults {Msg} _.
Arguments metadata {Msg} _.
Arguments iterations {Msg} _.
Arguments error {Msg} _.
Arguments output {Msg} _.
Arguments u_messages {Msg} _.
Arguments u_query {Msg} _.
Arguments u_toolResults {Msg} _.
Arguments u_metadata {Msg} _.
Arguments u_iterations {Msg} _.
Arguments u_error {Msg} _.
Arguments u_output {Msg} _.
Arguments empty_update {Msg}.
Arguments reduce {Msg} _ _.

End AgentStateAnnotation.

(** ** multi-agent.graph.ts, the nodes *)

Module MultiAgentNodes.

Import AgentStateAnnotation.

Definition State := AgentState MultiAgentGraph.BaseMessage.

Definition newline : string := String (ascii_of_N 10) EmptyString.

(** [new HumanMessage(text)], as far as its content goes. *)
Definition HumanMessage (text : string) : MultiAgentGraph.BaseMessage :=
  {| MultiAgentGraph.content := JsString text |}.

(** The state as [routeWork] reads it. *)
Definition routing_view (state : State) : MultiAgentGraph.AgentState :=
  {| MultiAgentGraph.messages := messages state;
     MultiAgentGraph.query := query state;
     MultiAgentGraph.iterations := iterations state;
     MultiAgentGraph.error := error state;
     MultiAgentGraph.output := output state |}.

Section Nodes.

(** [supervisorLLM.invoke] and the printing of numbers are not the
    repository's. *)
Variable invoke :
  list MultiAgentGraph.BaseMessage -> Completion MultiAgentGraph.BaseMessage.
Variable Number_toString : number -> string.

Definition supervisorPrompt (g : MultiAgentGraph.t) (state : State) : string :=
  "You are a supervisor agent. Based on the query, decide which worker to delegate to: "
  +:+ String.concat ", " (JsMap.keys (MultiAgentGraph.workers g))
  +:+ ", or 'end' to finish." +:+ newline
  +:+ "Query: " +:+ query state +:+ newline
  +:+ "Previous iterations: " +:+ Number_toString (default 0%Q (iterations state)).

Definition supervisorNode (g : MultiAgentGraph.t) (state : State)
  : Update MultiAgentGraph.BaseMessage :=
  let messages0 := (messages state ++ [HumanMessage (supervisorPrompt g state)])%list in
  match invoke messages0 with
  | Normal response =>
      {| u_messages := Some [response];
         u_query := None; u_toolResults := None;
         u_metadata :=
           Some (<["supervisorDecision" := MultiAgentGraph.content response]>
                   (<["lastNodeRun" := JsString "supervisor"]> (metadata state)));
         u_iterations := None; u_error := None; u_output := None |}
  | Throw e =>
      {| u_messages := None; u_query := None; u_toolResults := None;
         u_metadata := Some (<["supervisorError" := JsBool true]> (metadata state));
         u_iterations := None;
         u_error :=
           Some (Some match e with
                      | ThrownError err => message err
                      | ThrownValue _ => "Supervisor decision failed"
                      end);
         u_output := None |}
  end.

Definition workerNode (g : MultiAgentGraph.t) (workerName : string) (state : State)
  : Update MultiAgentGraph.BaseMessage :=
  match JsMap.get workerName (MultiAgentGraph.workers g) with
  | None =>
      {| u_messages := None; u_query := None; u_toolResults := None;
         u_metadata := Some (<["workerError" := JsBool true]> (metadata state));
         u_iterations := None;
         u_error := Some (Some ("Worker " +:+ workerName +:+ " not found"));
         u_output := None |}
  | Some worker =>
      match MultiAgentGraph.run worker (query state) with
      | Normal result =>
          {| u_messages := None; u_query := None;
             u_toolResults := Some (<[workerName := result]> (toolResults state));
             u_metadata :=
               Some (<["workerStatus" := JsString "success"]>
                       (<["lastWorker" := JsString workerName]> (metadata state)));
             u_iterations := None; u_error := None; u_output := None |}
      | Throw e =>
          {| u_messages := None; u_query := None;
             u_toolResults :=
               Some (<[workerName :=
                         JsObject [("error",
                                    JsString match e with
                                             | ThrownError err => message err
                                             | ThrownValue _ => "Worker execution failed"
                                             end)]]>
                       (toolResults state));
             u_metadata :=
               Some (<["workerStatus" := JsString "failed"]>
                       (<["lastWorker" := JsString workerName]> (metadata state)));
             u_iterations := None; u_error := None; u_output := None |}
      end
  end.

(** The state [run(query)] hands to the graph; [startedAt] is the date it
    reads. *)
Definition initial_state (g : MultiAgentGraph.t) (startedAt : string) (query0 : string)
  : State :=
  {| messages := []; query := query0; toolResults := ∅;
     metadata :=
       <["workers" := JsArray (List.map JsString (JsMap.keys (MultiAgentGraph.workers g)))]>
         (<["agentType" := JsString "multi-agent"]>
            (<["startedAt" := JsString startedAt]> ∅));
     iterations := Some 0%Q; error := None; output := None |}.

(** One node of the graph run on a state, its update reduced in. *)
Inductive Node : Type :=
| Supervisor
| Worker (workerName : string).

Definition step (g : MultiAgentGraph.t) (n : Node) (state : State) : State :=
  match n with
  | Supervisor => reduce state (supervisorNode g state)
  | Worker w => reduce state (workerNode g w state)
  end.

Definition steps (g : MultiAgentGraph.t) (ns : list Node) (state : State) : State :=
  fold_left (fun acc n => step g n acc) ns state.

End Nodes.

End MultiAgentNodes.

(** ** hitl-agent.graph.ts, the review and its routing *)

Module HITLAgentGraph.

Import AgentStateAnnotation.

Inductive Feedback : Type := approved | rejected | needs_revision.

Definition feedback_string (f : Feedback) : string :=
  match f with
  | approved => "approved"
  | rejected => "rejected"
  | needs_revision => "needs_revision"
  end.

Section Review.

Variable Msg : Type.

(** [state.metadata?.key], [undefined] when the key is missing. *)
Definition meta (key : string) (state : AgentState Msg) : JsValue :=
  default JsUndefined (metadata state !! key).

Definition humanReviewNode (state : AgentState Msg) : Update Msg :=
  let plan := if truthy (meta "plan" state) then meta "plan" state
              else JsString "No plan generated" in
  {| u_messages := None; u_query := None; u_toolResults := None;
     u_metadata :=
       Some (<["humanApproval" := JsString "pending"]>
               (<["pendingPlan" := plan]>
                  (<["requiresApproval" := JsBool true]>
                     (<["lastNodeRun" := JsString "human_review"]> (metadata state)))));
     u_iterations := None; u_error := None; u_output := None |}.

Definition processApproval (state : AgentState Msg) : string :=
  match meta "humanApproval" state with
  | JsString s =>
      if String.eqb s "approved" then "approved"
      else if String.eqb s "rejected" then "rejected"
      else if String.eqb s "needs_revision" then "needs_revision"
      else "needs_revision"
  | _ => "needs_revision"
  end.

(** [processHumanFeedback(state, feedback, notes?)]; [receivedAt] is the
    date it reads. *)
Definition processHumanFeedback (receivedAt : string) (state : AgentState Msg)
    (feedback : Feedback) (notes : option string) : AgentState Msg :=
  {| messages := messages state; query := query state;
     toolResults := toolResults state;
     metadata :=
       <["feedbackReceivedAt" := JsString receivedAt]>
         (<["humanFeedbackNotes" :=
              match notes with
              | Some n => JsString n
              | None => JsUndefined
              end]>
            (<["humanApproval" := JsString (feedback_string feedback)]>
               (metadata state)));
     iterations := iterations state; error := error state; output := output state |}.

End Review.

Arguments meta {Msg} _ _.
Arguments humanReviewNode {Msg} _.
Arguments processApproval {Msg} _.
Arguments processHumanFeedback {Msg} _ _ _ _.

End HITLAgentGraph.

(** ** basic-agent.graph.ts, the nodes *)

Module BasicAgentGraph.

Import AgentStateAnnotation.

Record ToolCall : Type := mkToolCall {
  tc_name : string;
  tc_id : option string;
  tc_args : option JsValue;
}.

(** A message: whether it is an [AIMessage], and the tool calls it asks
    for, if it carries any. *)
Record Message : Type := mkMessage {
  isAIMessage : bool;
  content : JsValue;
  tool_calls : option (list ToolCall);
}.

Record ToolDefinition : Type := mkTool {
  name : string;
  invoke : JsValue -> Completion JsValue;
}.

Record t : Type := mkGraph {
  tools : list ToolDefinition;
  maxIterations : number;
}.

(** [constructor(llm, tools = [], maxIterations = 10)] *)
Definition new (tools0 : option (list ToolDefinition)) (maxIterations0 : option number) : t :=
  {| tools := default [] tools0; maxIterations := default 10%Q maxIterations0 |}.

Definition State := AgentState Message.

Section Nodes.

(** [llm.invoke] and [String] are not the repository's. *)
Variable llm_invoke : list Message -> Completion Message.
Variable String_ : JsValue -> string.

(** The agent node has no [catch]: a throwing model throws through it. *)
Definition agentNode (timestamp : string) (state : State) : Completion (Update Message) :=
  match llm_invoke (messages state) with
  | Throw e => Throw e
  | Normal response =>
      Normal {| u_messages := Some [response];
                u_query := None; u_toolResults := None;
                u_metadata :=
                  Some (<["timestamp" := JsString timestamp]>
                          (<["lastNodeRun" := JsString "agent"]> (metadata state)));
                u_iterations := Some (default 0%Q (iterations state) + 1)%Q;
                u_error := None; u_output := None |}
  end.

(** [{ error: text }] *)
Definition error_object (text : string) : JsValue := JsObject [("error", JsString text)].

(** One turn of the loop over the tool calls. *)
Definition runToolCall (g : t) (toolResults0 : gmap string JsValue) (toolCall : ToolCall)
  : gmap string JsValue :=
  let toolId := default (tc_name toolCall) (tc_id toolCall) in
  match List.find (fun t0 => String.eqb (name t0) (tc_name toolCall)) (tools g) with
  | None =>
      <[toolId := error_object ("Tool " +:+ tc_name toolCall +:+ " not found")]>
        toolResults0
  | Some tool =>
      match invoke tool (default (JsObject []) (tc_args toolCall)) with
      | Normal result => <[toolId := result]> toolResults0
      | Throw (ThrownError err) => <[toolId := error_object (message err)]> toolResults0
      | Throw (ThrownValue v) => <[toolId := error_object (String_ v)]> toolResults0
      end
  end.

Definition toolsNode (g : t) (state : State) : Update Message :=
  match last (messages state) with
  | None => empty_update
  | Some lastMessage =>
      if negb (isAIMessage lastMessage) then empty_update
      else
        let calls := default [] (tool_calls lastMessage) in
        {| u_messages := None; u_query := None;
           u_toolResults := Some (fold_left (runToolCall g) calls ∅);
           u_metadata :=
             Some (<["toolCalls" := JsNumber (inject_Z (Z.of_nat (List.length calls)))]>
                     (<["lastNodeRun" := JsString "tools"]> (metadata state)));
           u_iterations := None; u_error := None; u_output := None |}
  end.


(** One node of the graph run on a state, its update reduced in. *)
Inductive Node : Type :=
| Agent (timestamp : string)
| Tools.

Definition step (g : t) (n : Node) (state : State) : Completion State :=
  match n with
  | Agent timestamp =>
      match agentNode timestamp state with
      | Normal u => Normal (reduce state u)
      | Throw e => Throw e
      end
  | Tools => Normal (reduce state (toolsNode g state))
  end.

Fixpoint steps (g : t) (ns : list Node) (state : State) : Completion State :=
  match ns with
  | [] => Normal state
  | n :: rest =>
      match step g n state with
      | Normal state' => steps g rest state'
      | Throw e => Throw e
      end
  end.

End Nodes.


End BasicAgentGraph.

(** ** in-memory-memory.service.ts *)

Module InMemoryMemoryService.

Section Service.

Variable Msg : Type.

(** Arrays are objects: the service keeps references to them, and so may
    its callers. The heap holds what each reference points to. *)
Definition ref := nat.

Record Heap : Type := mkHeap {
  arrays : gmap nat (list Msg);
  next : nat;
}.

(** A new array. *)
Definition alloc (items : list Msg) (h : Heap) : ref * Heap :=
  (next h, {| arrays := <[next h := items]> (arrays h); next := S (next h) |}).

Definition read (r : ref) (h : Heap) : list Msg := default [] (arrays h !! r).

Definition write (r : ref) (items : list Msg) (h : Heap) : Heap :=
  {| arrays := <[r := items]> (arrays h); next := next h |}.

(** The service is its one field, [memory]. *)
Definition t := JsMap.t ref.

Definition empty : t := [].

(** [this.memory.get(sessionId) ?? []] *)
Definition stored_or_new (sessionId : string) (memory : t) (h : Heap) : ref * Heap :=
  match JsMap.get sessionId memory with
  | Some r => (r, h)
  | None => alloc [] h
  end.

Definition getMemory (sessionId : string) (memory : t) (h : Heap) : ref * Heap :=
  stored_or_new sessionId memory h.

Definition saveMessages (sessionId : string) (messages : ref) (memory : t) : t :=
  JsMap.set sessionId messages memory.

(** [push] changes the array in place. *)
Definition addMessage (sessionId : string) (message : Msg) (memory : t) (h : Heap)
  : t * Heap :=
  let '(messages, h1) := stored_or_new sessionId memory h in
  let h2 := write messages (read messages h1 ++ [message])%list h1 in
  (JsMap.set sessionId messages memory, h2).

Definition clearMemory (sessionId : string) (memory : t) : t :=
  JsMap.delete sessionId memory.

Definition hasMemory (sessionId : string) (memory : t) : bool :=
  JsMap.has sessionId memory.

(** The messages of a session, as [getMemory] shows them. *)
Definition contents (sessionId : string) (memory : t) (h : Heap) : list Msg :=
  match JsMap.get sessionId memory with
  | Some r => read r h
  | None => []
  end.

Definition getMemorySize (sessionId : string) (memory : t) (h : Heap) : nat :=
  List.length (contents sessionId memory h).

(** [array.slice(start)]: up to the end of the array. *)
Definition slice_from (l : list Msg) (start : number) : list Msg :=
  slice l start (inject_Z (Z.of_nat (List.length l))).

(** [slice] makes a new array. *)
Definition trimMemory (sessionId : string) (maxMessages : number) (memory : t) (h : Heap)
  : t * Heap :=
  let '(messages, h1) := stored_or_new sessionId memory h in
  let items := read messages h1 in
  if num_gt (inject_Z (Z.of_nat (List.length items))) maxMessages
  then let '(trimmed, h2) := alloc (slice_from items (- maxMessages)%Q) h1 in
       (JsMap.set sessionId trimmed memory, h2)
  else (memory, h1).

End Service.

Arguments arrays {Msg} _.
Arguments next {Msg} _.
Arguments alloc {Msg} _ _.
Arguments read {Msg} _ _.
Arguments write {Msg} _ _ _.
Arguments stored_or_new {Msg} _ _ _.
Arguments getMemory {Msg} _ _ _.
Arguments addMessage {Msg} _ _ _ _.
Arguments contents {Msg} _ _ _.
Arguments getMemorySize {Msg} _ _ _.
Arguments slice_from {Msg} _ _.
Arguments trimMemory {Msg} _ _ _ _.

End InMemoryMemoryService.

(** ** multi-agent.graph.ts, the wiring *)

Module MultiAgentWiring.

(** The names the graph library gives to its entry and exit. *)
Definition START : string := "__start__".
Definition END_ : string := "__end__".

(** What the builder calls record: the nodes added, the plain edges, and
    the route options of the conditional edges out of the supervisor. *)
Record Workflow : Type := mkWorkflow {
  nodes : list string;
  edges : list (string * string);
  routeOptions : gmap string string;
}.

(** [buildGraph()], on the workers registered when it is called. *)
Definition buildGraph (workers : JsMap.t MultiAgentGraph.WorkerAgent) : Workflow :=
  {| nodes := "supervisor" :: JsMap.keys workers;
     edges := ((START, "supervisor")
               :: List.map (fun workerName => (workerName, "supervisor"))
                    (JsMap.keys workers))%list;
     routeOptions :=
       fold_left (fun options workerName => <[workerName := workerName]> options)
         (JsMap.keys workers) {["end" := END_]} |}.

(** The graph object with its [workflow] field. *)
Record t : Type := mkWired {
  graph : MultiAgentGraph.t;
  workflow : Workflow;
}.

(** The constructor builds the workflow there and then. *)
Definition new (maxIterations0 : option number) : t :=
  {| graph := MultiAgentGraph.new maxIterations0;
     workflow := buildGraph (MultiAgentGraph.workers (MultiAgentGraph.new maxIterations0)) |}.

(** [registerWorker] sets the Map and leaves the workflow alone. *)
Definition registerWorker (name0 : string) (agent : MultiAgentGraph.WorkerAgent) (w : t) : t :=
  {| graph := MultiAgentGraph.registerWorker name0 agent (graph w);
     workflow := workflow w |}.

Definition registerWorkers (regs : list (string * MultiAgentGraph.WorkerAgent)) (w : t) : t :=
  fold_left (fun acc reg => registerWorker (fst reg) (snd reg) acc) regs w.

End MultiAgentWiring.

(** ** More sample data *)

Module MoreSamples.

Import SessionEntity.

(** A session of the sample agent that expires at time 50. *)
Definition expiring_session : Session :=
  {| sessionId := "s-3"; agentId := "test-id"; SessionEntity.createdAt := 1%Z;
     SessionEntity.updatedAt := 1%Z; expiresAt := Some 50%Z; status := ACTIVE;
     SessionEntity.metadata := ∅ |}.

Definition three_sessions : InMemorySessionRepository.t :=
  InMemorySessionRepository.save Samples.active_session
    (InMemorySessionRepository.save expiring_session
       (InMemorySessionRepository.save Samples.failed_session
          InMemorySessionRepository.empty)).

(** The sample model configuration with a [topP] that validation would
    refuse. *)
Definition wild_topP_llm : LLMModelConfig :=
  {| provider := OPENAI; modelName := Some "gpt-4"; temperature := None;
     maxTokens := None; topP := Some 5%Q |}.

Definition sample_service : OpenAILLMService.t :=
  {| OpenAILLMService.apiKey := "sk-test"; OpenAILLMService.llmCache := [] |}.

(** A stand-in for the host's printing of numbers. *)
Definition show_number (x : number) : string := "n".

(** A supervisor graph with one worker, and a model that always names it. *)
Definition coder_graph : MultiAgentGraph.t :=
  MultiAgentGraph.registerWorker "Coder" Samples.idle_worker (MultiAgentGraph.new None).

Definition naming_llm (_ : list MultiAgentGraph.BaseMessage)
  : Completion MultiAgentGraph.BaseMessage :=
  Normal {| MultiAgentGraph.content := JsString "Ask the Coder" |}.

(** A state of the review graph without metadata. *)
Definition blank_state : AgentStateAnnotation.AgentState unit :=
  {| AgentStateAnnotation.messages := []; AgentStateAnnotation.query := "q";
     AgentStateAnnotation.toolResults := ∅; AgentStateAnnotation.metadata := ∅;
     AgentStateAnnotation.iterations := Some 0%Q;
     AgentStateAnnotation.error := None; AgentStateAnnotation.output := None |}.




(** A heap with one array of three messages, held by two sessions. *)
Definition shared_heap : InMemoryMemoryService.Heap string :=
  snd (InMemoryMemoryService.alloc ["a"; "b"; "c"]
         {| InMemoryMemoryService.arrays := ∅; InMemoryMemoryService.next := 0 |}).

Definition shared_memory : InMemoryMemoryService.t :=
  InMemoryMemoryService.saveMessages "s-2" 0
    (InMemoryMemoryService.saveMessages "s-1" 0 InMemoryMemoryService.empty).

End MoreSamples.

(** * Facts about the embedding's Maps and strings *)

Lemma JsMap_get_set_eq {V : Type} (k : string) (v : V) (m : JsMap.t V) :
  JsMap.get k (JsMap.set k v m) = Some v.
Proof.
  induction m as [|[k' v'] m IH]; simpl.
  - by rewrite String.eqb_refl.
  - destruct (String.eqb k' k) eqn:E; simpl.
    + by rewrite String.eqb_refl.
    + by rewrite E.
Qed.

Lemma JsMap_get_set_ne {V : Type} (k k0 : string) (v : V) (m : JsMap.t V) :
  k <> k0 -> JsMap.get k0 (JsMap.set k v m) = JsMap.get k0 m.
Proof.
  intros Hne. induction m as [|[k' v'] m IH]; simpl.
  - apply String.eqb_neq in Hne. by rewrite Hne.
  - destruct (String.eqb k' k) eqn:E; simpl.
    + apply String.eqb_eq in E. subst k'.
      apply String.eqb_neq in Hne. by rewrite Hne.
    + destruct (String.eqb k' k0); [done | apply IH].
Qed.

Lemma JsMap_get_delete_eq {V : Type} (k : string) (m : JsMap.t V) :
  JsMap.get k (JsMap.delete k m) = None.
Proof.
  induction m as [|[k' v'] m IH]; simpl; [done |].
  destruct (String.eqb k' k) eqn:E; simpl; [apply IH |].
  rewrite E. apply IH.
Qed.

Lemma JsMap_get_delete_ne {V : Type} (k k0 : string) (m : JsMap.t V) :
  k <> k0 -> JsMap.get k0 (JsMap.delete k m) = JsMap.get k0 m.
Proof.
  intros Hne. induction m as [|[k' v'] m IH]; simpl; [done |].
  destruct (String.eqb k' k) eqn:E; simpl.
  - apply String.eqb_eq in E. subst k'.
    apply String.eqb_neq in Hne. by rewrite Hne.
  - destruct (String.eqb k' k0); [done | apply IH].
Qed.

Lemma JsMap_delete_absent {V : Type} (k : string) (m : JsMap.t V) :
  JsMap.has k m = false -> JsMap.delete k m = m.
Proof.
  unfold JsMap.has.
  induction m as [|[k' v'] m IH]; simpl; [done |].
  destruct (String.eqb k' k) eqn:E; simpl; [done |].
  intros H. f_equal. by apply IH.
Qed.

Lemma JsMap_has_set {V : Type} (k : string) (v : V) (m : JsMap.t V) :
  JsMap.has k (JsMap.set k v m) = true.
Proof. unfold JsMap.has. by rewrite JsMap_get_set_eq. Qed.

(** A new key goes to the end of the key order; a known key stays put. *)
Lemma JsMap_keys_set {V : Type} (k : string) (v : V) (m : JsMap.t V) :
  JsMap.keys (JsMap.set k v m)
  = if JsMap.has k m then JsMap.keys m else (JsMap.keys m ++ [k])%list.
Proof.
  unfold JsMap.has.
  induction m as [|[k' v'] m IH]; simpl; [done |].
  destruct (String.eqb k' k) eqn:E; simpl.
  - apply String.eqb_eq in E. by subst k'.
  - rewrite IH. by destruct (JsMap.get k m).
Qed.

(** * Session status operations *)

Section SessionStatus.
Import SessionEntity.

Lemma note_reason_status (key : string) (reason : option string) (s : Session) :
  status (note_reason key reason s) = status s.
Proof.
  unfold note_reason. destruct reason as [r|]; [|done].
  by destruct (truthy_string r).
Qed.

(** C1, as stated, fails: [complete()] on a failed session leaves the
    status at [failed]; it does not become [completed]. *)
Lemma complete_on_failed_is_not_completed :
  status (complete 2%Z Samples.failed_session) = FAILED
  /\ status (complete 2%Z Samples.failed_session) <> COMPLETED.
Proof. split; [reflexivity | discriminate]. Qed.

(** C1, amended: [fail()] and [interrupt()] assign the status whatever it
    was; [pause()] acts only on an active session, [resume()] only on a
    paused one and [complete()] only on an active or paused one, and each
    of the three leaves the whole session untouched otherwise. In
    particular [complete()] on a failed session keeps it failed. *)
Theorem Session_status_operations (now : Date) (reason : option string) (s : Session) :
  status (fail now reason s) = FAILED
  /\ status (interrupt now reason s) = INTERRUPTED
  /\ (status s = ACTIVE -> status (pause now s) = PAUSED)
  /\ (status s <> ACTIVE -> pause now s = s)
  /\ (status s = PAUSED -> status (resume now s) = ACTIVE)
  /\ (status s <> PAUSED -> resume now s = s)
  /\ (status s = ACTIVE \/ status s = PAUSED -> status (complete now s) = COMPLETED)
  /\ (status s <> ACTIVE -> status s <> PAUSED -> complete now s = s)
  /\ (status s = FAILED -> status (complete now s) = FAILED).
Proof.
  unfold fail, interrupt, pause, resume, complete.
  rewrite !note_reason_status.
  repeat split; try done.
  - intros H. rewrite bool_decide_eq_true_2; done.
  - intros H. by rewrite bool_decide_eq_false_2.
  - intros H. rewrite bool_decide_eq_true_2; done.
  - intros H. by rewrite bool_decide_eq_false_2.
  - intros [H | H].
    + rewrite bool_decide_eq_true_2; done.
    + rewrite (bool_decide_eq_true_2 (status s = PAUSED)); [|done].
      by rewrite orb_true_r.
  - intros H1 H2. by rewrite !bool_decide_eq_false_2.
  - intros H. rewrite !bool_decide_eq_false_2; simpl; congruence.
Qed.

Lemma Session_status_operations_witness :
  status Samples.active_session = ACTIVE
  /\ status (pause 2%Z Samples.active_session) = PAUSED
  /\ complete 2%Z Samples.failed_session = Samples.failed_session.
Proof.
  split; [reflexivity |]. split.
  - destruct (Session_status_operations 2%Z None Samples.active_session)
      as (_ & _ & H & _).
    apply H. reflexivity.
  - destruct (Session_status_operations 2%Z None Samples.failed_session)
      as (_ & _ & _ & _ & _ & _ & _ & H & _).
    apply H; discriminate.
Defined.

End SessionStatus.

(** * Deleting an absent key *)

(** C9: deleting an identifier that is not in the store leaves the stored
    Map as it was, in the agent repository and in the session repository;
    [delete] has no failing outcome. *)
Theorem delete_absent_is_noop
    (agentId sessionId : string)
    (agents : InMemoryAgentRepository.t) (sessions : InMemorySessionRepository.t) :
  (InMemoryAgentRepository.exists_ agentId agents = false ->
   InMemoryAgentRepository.delete agentId agents = agents)
  /\ (InMemorySessionRepository.exists_ sessionId sessions = false ->
      InMemorySessionRepository.delete sessionId sessions = sessions).
Proof.
  split; intros H; by apply JsMap_delete_absent.
Qed.

Lemma delete_absent_is_noop_witness :
  InMemoryAgentRepository.delete "non-existent"
    (InMemoryAgentRepository.save Samples.sample_agent InMemoryAgentRepository.empty)
  = InMemoryAgentRepository.save Samples.sample_agent InMemoryAgentRepository.empty
  /\ InMemorySessionRepository.delete "non-existent"
       (InMemorySessionRepository.save Samples.failed_session InMemorySessionRepository.empty)
     = InMemorySessionRepository.save Samples.failed_session InMemorySessionRepository.empty.
Proof.
  destruct (delete_absent_is_noop "non-existent" "non-existent"
              (InMemoryAgentRepository.save Samples.sample_agent
                 InMemoryAgentRepository.empty)
              (InMemorySessionRepository.save Samples.failed_session
                 InMemorySessionRepository.empty)) as [Ha Hs].
  split; [apply Ha | apply Hs]; reflexivity.
Defined.

(** * The agent entity's validation *)

Section AgentValidation.
Import AgentEntity.

Lemma string_length_zero (s : string) : String.length s = 0 <-> s = "".
Proof. destruct s; simpl; split; congruence. Qed.

Lemma name_blank_spec (n : option string) :
  name_blank n = true <-> n = None \/ exists s, n = Some s /\ trim s = "".
Proof.
  destruct n as [s|]; simpl.
  - rewrite orb_true_iff, Nat.eqb_eq, string_length_zero. split.
    + intros [H | H]; right; exists s; split; try done.
      destruct s; [done | discriminate].
    + intros [H | (s' & [= <-] & H)]; [done | by right].
  - split; [by left | done].
Qed.

Lemma name_blank_false (n : option string) :
  name_blank n = false <-> exists s, n = Some s /\ trim s <> "".
Proof.
  split.
  - intros H. destruct n as [s|]; [|done]. exists s. split; [done |].
    intros Ht. assert (name_blank (Some s) = true) as H'.
    { apply name_blank_spec. right. by exists s. }
    congruence.
  - intros (s & -> & Ht). destruct (name_blank (Some s)) eqn:E; [|done].
    apply name_blank_spec in E as [E | (s' & [= <-] & E)]; done.
Qed.

Lemma model_missing_false (c : option LLMModelConfig) :
  model_missing c = false <->
  exists l m, c = Some l /\ modelName l = Some m /\ m <> "".
Proof.
  unfold model_missing. split.
  - destruct c as [l|]; [|done]. destruct (modelName l) as [m|] eqn:E; [|done].
    intros H. exists l, m. repeat split; try done. by destruct m.
  - intros (l & m & -> & -> & Hm). by destruct m.
Qed.

Lemma num_gt_spec (x y : number) : num_gt x y = true <-> (y < x)%Q.
Proof.
  unfold num_gt. rewrite negb_true_iff. split.
  - intros H. apply Qnot_le_lt. intros Hle. apply Qle_bool_iff in Hle. congruence.
  - intros H. destruct (Qle_bool x y) eqn:E; [|done].
    apply Qle_bool_iff in E. by apply Qlt_not_le in H.
Qed.

Lemma num_lt_spec (x y : number) : num_lt x y = true <-> (x < y)%Q.
Proof. apply (num_gt_spec y x). Qed.

(** The first numeric guard fires exactly on the open interval (0, 1). *)
Lemma maxIterations_guard_spec (x : number) :
  maxIterations_guard (Some x) = true <-> (0 < x /\ x < 1)%Q.
Proof.
  simpl. rewrite !andb_true_iff, num_gt_spec, num_lt_spec. split.
  - intros [[_ H1] H2]. done.
  - intros [H1 H2]. repeat split; try done.
    unfold truthy_number. rewrite negb_true_iff.
    destruct (Qeq_bool x 0) eqn:E; [|done].
    apply Qeq_bool_iff in E. rewrite E in H1. by apply Qlt_irrefl in H1.
Qed.

(** The second one fires exactly on the negative numbers. *)
Lemma timeoutMs_guard_spec (x : number) :
  timeoutMs_guard (Some x) = true <-> (x < 0)%Q.
Proof.
  simpl. unfold truthy_number, num_le.
  rewrite andb_true_iff, negb_true_iff, Qle_bool_iff. split.
  - intros [H1 H2]. apply Qle_lt_or_eq in H2 as [H2 | H2]; [done |].
    apply Qeq_bool_iff in H2. congruence.
  - intros H. split; [| by apply Qlt_le_weak].
    destruct (Qeq_bool x 0) eqn:E; [|done].
    apply Qeq_bool_iff in E. rewrite E in H. by apply Qlt_irrefl in H.
Qed.

Lemma validateConfig_Normal (c : AgentConfig) :
  validateConfig c = Normal tt <->
  name_blank (name c) = false
  /\ is_Some (type c)
  /\ model_missing (llmConfig c) = false
  /\ maxIterations_guard (maxIterations c) = false
  /\ timeoutMs_guard (timeoutMs c) = false.
Proof.
  unfold validateConfig. split.
  - intros H.
    destruct (name_blank (name c)); [done |].
    destruct (bool_decide (is_Some (type c))) eqn:Et; [|done].
    apply bool_decide_eq_true_1 in Et.
    destruct (model_missing (llmConfig c)); [done |].
    destruct (maxIterations_guard (maxIterations c)); [done |].
    destruct (timeoutMs_guard (timeoutMs c)); done.
  - intros (-> & Ht & -> & -> & ->).
    by rewrite bool_decide_eq_true_2.
Qed.

Lemma validateConfig_outcome (c : AgentConfig) :
  validateConfig c = Normal tt \/ exists msg, validateConfig c = Throw (Error msg).
Proof.
  unfold validateConfig.
  repeat (match goal with
          | |- context [if ?b then _ else _] => destruct b
          end; [right; eauto |]).
  by left.
Qed.

Lemma validateConfig_invariant (c : AgentConfig) :
  validateConfig c = Normal tt -> config_invariant c.
Proof.
  intros H. apply validateConfig_Normal in H as (Hn & Ht & Hm & _).
  repeat split; [by apply name_blank_false | done | by apply model_missing_false].
Qed.

Lemma invariant_validateConfig (c : AgentConfig) :
  config_invariant c ->
  maxIterations_guard (maxIterations c) = false ->
  timeoutMs_guard (timeoutMs c) = false ->
  validateConfig c = Normal tt.
Proof.
  intros (Hn & Ht & Hm) Hi Hto. apply validateConfig_Normal.
  repeat split; [by apply name_blank_false | done | by apply model_missing_false
                | done | done].
Qed.

(** A configuration that meets the invariant passes validation unless one
    of the two numeric guards fires. *)
Lemma validateConfig_accepts (c : AgentConfig) :
  config_invariant c ->
  (forall x, maxIterations c = Some x -> ~ (0 < x /\ x < 1)%Q) ->
  (forall x, timeoutMs c = Some x -> (0 <= x)%Q) ->
  validateConfig c = Normal tt.
Proof.
  intros Hinv Hmax Hto. apply invariant_validateConfig; [done | |].
  - destruct (maxIterations c) as [x|] eqn:E; [|done].
    destruct (maxIterations_guard (Some x)) eqn:G; [|done].
    apply maxIterations_guard_spec in G. by apply (Hmax x) in G.
  - destruct (timeoutMs c) as [x|] eqn:E; [|done].
    destruct (timeoutMs_guard (Some x)) eqn:G; [|done].
    apply timeoutMs_guard_spec in G. specialize (Hto x eq_refl).
    by apply Qle_not_lt in Hto.
Qed.

Lemma new_Normal_inv (uuid : string) (now : Date) (c : AgentConfig)
    (id0 : option string) (act : option bool) (cr up : option Date) (a : Agent) :
  new uuid now c id0 act cr up = Normal a ->
  validateConfig c = Normal tt
  /\ config a = c /\ id a = default uuid id0 /\ isActive a = default true act.
Proof.
  unfold new. destruct (validateConfig c) as [[]|] eqn:E; [|done].
  intros [= <-]. done.
Qed.

Lemma new_outcome (uuid : string) (now : Date) (c : AgentConfig)
    (id0 : option string) (act : option bool) (cr up : option Date) :
  (exists a, new uuid now c id0 act cr up = Normal a /\ validateConfig c = Normal tt)
  \/ (exists msg, new uuid now c id0 act cr up = Throw (Error msg)
                  /\ validateConfig c = Throw (Error msg)).
Proof.
  unfold new. destruct (validateConfig_outcome c) as [-> | [msg ->]]; eauto.
Qed.

End AgentValidation.

(** * The agent invariant *)

Section AgentInvariant.
Import AgentEntity.

(** C7: an agent that the constructor returns, and an agent that
    [updateConfig] returns, has a name that is not blank, a type and a
    model name that is not empty; on a configuration that breaks this, the
    constructor and [updateConfig] throw. *)
Theorem Agent_invariant :
  (forall uuid now c id0 act cr up a,
      new uuid now c id0 act cr up = Normal a -> config_invariant (config a))
  /\ (forall now p a a',
         updateConfig now p a = Normal a' -> config_invariant (config a'))
  /\ (forall uuid now c id0 act cr up,
         ~ config_invariant c -> exists t, new uuid now c id0 act cr up = Throw t)
  /\ (forall now p a,
         ~ config_invariant (spread (config a) p) ->
         exists t, updateConfig now p a = Throw t).
Proof.
  split; [|split; [|split]].
  - intros uuid now c id0 act cr up a H.
    apply new_Normal_inv in H as (Hv & -> & _). by apply validateConfig_invariant.
  - intros now p a a'. unfold updateConfig.
    destruct (validateConfig (spread (config a) p)) as [[]|] eqn:E; [|done].
    intros [= <-]. simpl. by apply validateConfig_invariant.
  - intros uuid now c id0 act cr up Hn.
    destruct (new_outcome uuid now c id0 act cr up) as [(a & _ & Hv) | (msg & H & _)].
    + by apply validateConfig_invariant in Hv.
    + eauto.
  - intros now p a Hn. unfold updateConfig.
    destruct (validateConfig_outcome (spread (config a) p)) as [Hv | [msg ->]].
    + by apply validateConfig_invariant in Hv.
    + eauto.
Qed.

Lemma Agent_invariant_witness :
  config_invariant (config Samples.sample_agent)
  /\ (exists a',
         updateConfig 5%Z Samples.update_maxIterations_20 Samples.sample_agent = Normal a'
         /\ config_invariant (config a')).
Proof.
  destruct Agent_invariant as (Hnew & Hupd & _).
  split.
  - apply (Hnew "test-id" 1%Z Samples.sample_config (Some "test-id") None None None).
    reflexivity.
  - eexists. split; [reflexivity |].
    apply (Hupd 5%Z Samples.update_maxIterations_20 Samples.sample_agent).
    reflexivity.
Defined.

(** C10, as stated, fails twice over: the guard on [maxIterations] holds at
    0.5, so the constructor throws its error there; and with a valid name,
    type and model name the constructor still throws on a negative
    [timeoutMs], whatever [maxIterations] is. *)
Lemma maxIterations_guard_reachable :
  maxIterations_guard (Some (1 # 2)%Q) = true
  /\ new "id" 1%Z (Samples.with_limits (Some (1 # 2)%Q) None Samples.sample_config)
       None None None None
     = Throw (Error "Max iterations must be greater than 0")
  /\ new "id" 1%Z (Samples.with_limits (Some 5%Q) (Some (-1)%Q) Samples.sample_config)
       None None None None
     = Throw (Error "Timeout must be greater than 0").
Proof. repeat split; reflexivity. Qed.

(** C10, amended: the guard on [maxIterations] holds exactly for the
    numbers strictly between 0 and 1, so it holds for no integer; for
    every configuration with a valid name, type and model name, whose
    [timeoutMs] is absent or not negative, construction succeeds when
    [maxIterations] is absent, an integer (zero and the negative ones
    included) or any other number outside that interval. *)
Theorem maxIterations_guard_integers :
  (forall x : number, maxIterations_guard (Some x) = true <-> (0 < x /\ x < 1)%Q)
  /\ (forall z : Z, maxIterations_guard (Some (inject_Z z)) = false)
  /\ (forall uuid now c id0 act cr up,
         config_invariant c ->
         (forall x, maxIterations c = Some x -> ~ (0 < x /\ x < 1)%Q) ->
         (forall x, timeoutMs c = Some x -> (0 <= x)%Q) ->
         exists a, new uuid now c id0 act cr up = Normal a /\ config a = c).
Proof.
  assert (forall z : Z, maxIterations_guard (Some (inject_Z z)) = false) as Hint.
  { intros z. destruct (maxIterations_guard (Some (inject_Z z))) eqn:E; [|done].
    apply maxIterations_guard_spec in E as [H0 H1].
    unfold Qlt, inject_Z in H0, H1. simpl in H0, H1. lia. }
  split; [apply maxIterations_guard_spec | split; [done |]].
  intros uuid now c id0 act cr up Hinv Hmax Hto.
  unfold new. rewrite validateConfig_accepts by done. eauto.
Qed.

Lemma maxIterations_guard_integers_witness :
  exists a,
    new "id" 1%Z (Samples.with_limits (Some (inject_Z (-3))) (Some 0%Q) Samples.sample_config)
      None None None None = Normal a
    /\ config a = Samples.with_limits (Some (inject_Z (-3))) (Some 0%Q) Samples.sample_config.
Proof.
  destruct maxIterations_guard_integers as (_ & _ & H).
  apply H.
  - repeat split.
    + exists "Test Agent". split; [reflexivity | discriminate].
    + exists GENERAL. reflexivity.
    + exists Samples.sample_llm, "gpt-4".
      split; [reflexivity | split; [reflexivity | discriminate]].
  - intros x [= <-] [H0 _]. unfold Qlt in H0. simpl in H0. lia.
  - intros x [= <-]. unfold Qle. simpl. lia.
Defined.

End AgentInvariant.

(** * Creating an agent *)

Section CreateAgent.
Import AgentEntity.

Lemma usecase_validateConfig_Normal (config : option AgentConfig) :
  CreateAgentUseCase.validateConfig config = Normal tt <->
  exists c, config = Some c
            /\ name_blank (name c) = false
            /\ is_Some (type c)
            /\ model_missing (llmConfig c) = false.
Proof.
  unfold CreateAgentUseCase.validateConfig, model_missing. split.
  - destruct config as [c|]; [|done]. intros H. exists c.
    destruct (name_blank (name c)); [done |].
    destruct (bool_decide (is_Some (type c))) eqn:Et; [|done].
    apply bool_decide_eq_true_1 in Et.
    destruct (llmConfig c) as [l|]; [|done].
    destruct (modelName l) as [m|]; [|done].
    destruct (truthy_string m); done.
  - intros (c & -> & -> & Ht & Hm). rewrite bool_decide_eq_true_2 by done. simpl.
    destruct (llmConfig c) as [l|]; [|done].
    destruct (modelName l) as [m|]; [|done].
    by destruct (truthy_string m).
Qed.

Lemma usecase_validateConfig_outcome (config : option AgentConfig) :
  CreateAgentUseCase.validateConfig config = Normal tt
  \/ exists reason,
       CreateAgentUseCase.validateConfig config = Throw (InvalidAgentConfigError reason).
Proof.
  unfold CreateAgentUseCase.validateConfig.
  destruct config as [c|]; [|right; eauto].
  destruct (name_blank (name c)); [right; eauto |].
  destruct (negb (bool_decide (is_Some (type c)))); [right; eauto |].
  destruct (llmConfig c) as [l|]; [|right; eauto].
  destruct (modelName l) as [m|]; [|right; eauto].
  destruct (negb (truthy_string m)); [right; eauto | by left].
Qed.

(** What [execute] can do: save the new agent and return it, or throw an
    [InvalidAgentConfigError] and leave the repository alone. *)
Lemma execute_outcome (uuid : string) (now : Date) (config : option AgentConfig)
    (repo : InMemoryAgentRepository.t) :
  (exists c agent,
      config = Some c
      /\ CreateAgentUseCase.execute uuid now config repo
         = (Normal agent, InMemoryAgentRepository.save agent repo)
      /\ CreateAgentUseCase.validateConfig config = Normal tt
      /\ InMemoryAgentRepository.findByName (name c) repo = None
      /\ new uuid now c None None None None = Normal agent)
  \/ (exists reason,
         CreateAgentUseCase.execute uuid now config repo
         = (Throw (InvalidAgentConfigError reason), repo)).
Proof.
  unfold CreateAgentUseCase.execute.
  destruct (usecase_validateConfig_outcome config) as [Hv | [reason Hv]].
  - rewrite Hv. destruct config as [c|]; [|right; eauto].
    destruct (InMemoryAgentRepository.findByName (name c) repo) eqn:Hf; [right; eauto |].
    destruct (new_outcome uuid now c None None None None)
      as [(a & Ha & _) | (msg & Ha & _)]; rewrite Ha.
    + left. exists c, a. done.
    + right. simpl. eauto.
  - rewrite Hv. right. eauto.
Qed.

Lemma findByName_stored (n : option string) (repo : InMemoryAgentRepository.t) :
  (exists a, In a (JsMap.values repo) /\ getName a = n) ->
  is_Some (InMemoryAgentRepository.findByName n repo).
Proof.
  intros (a & Hin & Hn). unfold InMemoryAgentRepository.findByName.
  destruct (List.find _ (JsMap.values repo)) eqn:E; [eauto |].
  eapply find_none in E; [|exact Hin]. simpl in E.
  by rewrite bool_decide_eq_true_2 in E.
Qed.

Lemma findByName_fresh (n : option string) (repo : InMemoryAgentRepository.t) :
  (forall a, In a (JsMap.values repo) -> getName a <> n) ->
  InMemoryAgentRepository.findByName n repo = None.
Proof.
  intros H. unfold InMemoryAgentRepository.findByName.
  destruct (List.find _ (JsMap.values repo)) eqn:E; [|done].
  apply find_some in E as [Hin Hn]. apply bool_decide_eq_true_1 in Hn.
  by apply H in Hin.
Qed.

(** C3: [execute] throws an [InvalidAgentConfigError] when the name is
    missing or blank, when the type is missing, when the LLM configuration
    or its model name is missing, and when an agent of that name is stored;
    whenever [execute] throws, the repository is what it was. *)
Theorem CreateAgent_rejects (uuid : string) (now : Date) (c : AgentConfig)
    (repo : InMemoryAgentRepository.t) :
  (name c = None
   \/ (exists n, name c = Some n /\ trim n = "")
   \/ type c = None
   \/ llmConfig c = None
   \/ (exists l, llmConfig c = Some l /\ (modelName l = None \/ modelName l = Some ""))
   \/ (exists a, In a (JsMap.values repo) /\ getName a = name c) ->
   exists reason,
     CreateAgentUseCase.execute uuid now (Some c) repo
     = (Throw (InvalidAgentConfigError reason), repo))
  /\ (forall t repo',
         CreateAgentUseCase.execute uuid now (Some c) repo = (Throw t, repo') ->
         repo' = repo /\ isInvalidAgentConfigError t = true).
Proof.
  split.
  - intros Hbad.
    destruct (execute_outcome uuid now (Some c) repo)
      as [(c' & a & [= <-] & _ & Hv & Hf & _) | H]; [|done].
    exfalso.
    apply usecase_validateConfig_Normal in Hv as (c' & [= <-] & Hn & Ht & Hm).
    apply name_blank_false in Hn as (n & Hn & Htrim).
    apply model_missing_false in Hm as (l & m & Hl & Hm & Hne).
    destruct Hbad as [H | [(n' & H & H') | [H | [H | [(l' & H & H') | H]]]]].
    + congruence.
    + congruence.
    + rewrite H in Ht. by destruct Ht.
    + congruence.
    + assert (l' = l) as -> by congruence. destruct H'; congruence.
    + apply findByName_stored in H. rewrite Hf in H. by destruct H.
  - intros t repo' H.
    destruct (execute_outcome uuid now (Some c) repo)
      as [(c' & a & _ & He & _) | (reason & He)]; rewrite He in H.
    + done.
    + by injection H as <- <-.
Qed.

Lemma CreateAgent_rejects_witness :
  exists reason,
    CreateAgentUseCase.execute "id" 1%Z
      (Some (Samples.with_name (Some "   ") Samples.sample_config))
      InMemoryAgentRepository.empty
    = (Throw (InvalidAgentConfigError reason), InMemoryAgentRepository.empty).
Proof.
  destruct (CreateAgent_rejects "id" 1%Z
              (Samples.with_name (Some "   ") Samples.sample_config)
              InMemoryAgentRepository.empty) as [H _].
  apply H. right. left. exists "   ". split; reflexivity.
Defined.

(** C8: when [execute] returns an agent, [findById] on that agent's id
    gives back that very agent, which carries the generated id, the
    configuration that was passed and the active flag; and [execute] does
    return one for a configuration that meets the agent invariant, trips
    neither numeric guard and whose name no stored agent has. *)
Theorem create_then_read (uuid : string) (now : Date) (c : AgentConfig)
    (repo : InMemoryAgentRepository.t) :
  (forall agent repo',
      CreateAgentUseCase.execute uuid now (Some c) repo = (Normal agent, repo') ->
      InMemoryAgentRepository.findById (getId agent) repo' = Some agent
      /\ getId agent = uuid
      /\ getConfig agent = c
      /\ isAgentActive agent = true)
  /\ (config_invariant c ->
      (forall x, maxIterations c = Some x -> ~ (0 < x /\ x < 1)%Q) ->
      (forall x, timeoutMs c = Some x -> (0 <= x)%Q) ->
      (forall a, In a (JsMap.values repo) -> getName a <> name c) ->
      exists agent,
        CreateAgentUseCase.execute uuid now (Some c) repo
        = (Normal agent, InMemoryAgentRepository.save agent repo)).
Proof.
  split.
  - intros agent repo' H.
    destruct (execute_outcome uuid now (Some c) repo)
      as [(c' & a & [= <-] & He & _ & _ & Hnew) | (reason & He)]; rewrite He in H;
      [|done].
    injection H as <- <-.
    apply new_Normal_inv in Hnew as (_ & Hc & Hid & Hact).
    unfold InMemoryAgentRepository.findById, InMemoryAgentRepository.save.
    rewrite JsMap_get_set_eq. done.
  - intros Hinv Hmax Hto Hfresh.
    pose proof (validateConfig_accepts c Hinv Hmax Hto) as Hv.
    unfold CreateAgentUseCase.execute.
    assert (CreateAgentUseCase.validateConfig (Some c) = Normal tt) as ->.
    { apply validateConfig_Normal in Hv as (Hn & Ht & Hm & _).
      apply usecase_validateConfig_Normal. by exists c. }
    rewrite findByName_fresh by done.
    unfold new. rewrite Hv. eauto.
Qed.

Lemma create_then_read_witness :
  exists agent,
    CreateAgentUseCase.execute "test-id" 1%Z (Some Samples.sample_config)
      InMemoryAgentRepository.empty
    = (Normal agent, InMemoryAgentRepository.save agent InMemoryAgentRepository.empty)
    /\ InMemoryAgentRepository.findById "test-id"
         (InMemoryAgentRepository.save agent InMemoryAgentRepository.empty)
       = Some agent.
Proof.
  destruct (create_then_read "test-id" 1%Z Samples.sample_config
              InMemoryAgentRepository.empty) as [Hread Hret].
  destruct Hret as [agent He].
  - split; [|split].
    + exists "Test Agent". split; [reflexivity | discriminate].
    + exists GENERAL. reflexivity.
    + exists Samples.sample_llm, "gpt-4".
      split; [reflexivity | split; [reflexivity | discriminate]].
  - intros x [=].
  - intros x [=].
  - intros a [].
  - exists agent. split; [exact He |].
    destruct (Hread agent _ He) as (Hf & Hid & _).
    rewrite <- Hid at 1. exact Hf.
Defined.

End CreateAgent.

(** * Pagination *)

Section Pagination.

Lemma ToIntegerOrInfinity_integer (x : number) (z : Z) :
  (x == inject_Z z)%Q -> ToIntegerOrInfinity x = z.
Proof.
  intros H. unfold ToIntegerOrInfinity.
  destruct (Qle_bool 0 x); rewrite H; [apply Qfloor_Z | apply Qceiling_Z].
Qed.

(** On non-negative whole numbers [slice] is [firstn] after [skipn]. *)
Lemma slice_firstn_skipn {A : Type} (l : list A) (x y : number) (s t : Z) :
  (0 <= s)%Z -> (0 <= t)%Z -> (x == inject_Z s)%Q -> (y == inject_Z t)%Q ->
  slice l x (x + y)%Q = firstn (Z.to_nat t) (skipn (Z.to_nat s) l).
Proof.
  intros Hs Ht Hx Hy. unfold slice.
  rewrite (ToIntegerOrInfinity_integer x s Hx).
  rewrite (ToIntegerOrInfinity_integer (x + y)%Q (s + t)%Z)
    by (rewrite Hx, Hy, inject_Z_plus; reflexivity).
  unfold relativeIndex.
  destruct (Z.ltb_spec s 0) as [|_]; [lia |].
  destruct (Z.ltb_spec (s + t) 0) as [|_]; [lia |].
  destruct (Z_le_gt_dec (Z.of_nat (List.length l)) s) as [Hge | Hlt].
  - rewrite !drop_ge by (rewrite ?Z.min_r by lia; lia).
    by rewrite !take_nil.
  - rewrite (Z.min_l s) by lia.
    destruct (Z_le_gt_dec (s + t) (Z.of_nat (List.length l))) as [Hin | Hout].
    + rewrite Z.min_l by lia. f_equal. lia.
    + rewrite Z.min_r by lia.
      rewrite !take_ge; [done | |]; rewrite length_drop; lia.
Qed.

Lemma paginate_is_page {T : Type} (items : list T) (cursor : option PageCursor) :
  is_page items cursor
    {| data := slice items (number_or (cursor_skip cursor) 0%Q)
                 (number_or (cursor_skip cursor) 0%Q + number_or (cursor_take cursor) 10%Q)%Q;
       total := List.length items;
       r_skip := number_or (cursor_skip cursor) 0%Q;
       r_take := number_or (cursor_take cursor) 10%Q |}.
Proof.
  unfold is_page. simpl. repeat split.
  intros s t Hs Ht Hx Hy. by apply slice_firstn_skipn.
Qed.

(** C4, as stated, fails: a cursor whose [take] is present and zero is
    served with the default of ten, so the page is not the empty slice
    from [skip] to [skip + 0] and the [take] reported is not the cursor's. *)
Lemma findAll_take_zero_uses_default :
  let repo := InMemoryAgentRepository.save Samples.sample_agent InMemoryAgentRepository.empty in
  let r := InMemoryAgentRepository.findAll (Some Samples.cursor_take_zero) repo in
  data r = [Samples.sample_agent]
  /\ data r <> firstn 0 (skipn 0 (JsMap.values repo))
  /\ r_take r = 10%Q.
Proof. repeat split. discriminate. Qed.

(** C4, amended: [findAll] and [findByAgentId] return the slice of the
    stored (respectively agent-matching) items from index [skip] to
    [skip + take], where [skip] defaults to 0 and [take] to 10 when the
    cursor or the field is absent or zero; they report the full count of
    those items and the [skip] and [take] used. For non-negative whole
    [skip] and [take] the slice is the [take] items that follow the first
    [skip]. *)
Theorem pagination_pages (cursor : option PageCursor) (agentId : string)
    (agents : InMemoryAgentRepository.t) (sessions : InMemorySessionRepository.t) :
  is_page (JsMap.values agents) cursor (InMemoryAgentRepository.findAll cursor agents)
  /\ is_page
       (List.filter (fun s => String.eqb (SessionEntity.getAgentId s) agentId)
          (JsMap.values sessions))
       cursor
       (InMemorySessionRepository.findByAgentId agentId cursor sessions).
Proof.
  split; apply paginate_is_page.
Qed.

Lemma pagination_pages_witness :
  let repo :=
    InMemoryAgentRepository.save Samples.third_agent
      (InMemoryAgentRepository.save Samples.second_agent
         (InMemoryAgentRepository.save Samples.sample_agent
            InMemoryAgentRepository.empty)) in
  data (InMemoryAgentRepository.findAll (Some Samples.cursor_1_2) repo)
  = firstn 2 (skipn 1 (JsMap.values repo))
  /\ firstn 2 (skipn 1 (JsMap.values repo))
     = [Samples.second_agent; Samples.third_agent].
Proof.
  intros repo. split; [|reflexivity].
  destruct (pagination_pages (Some Samples.cursor_1_2) "test-id" repo
              InMemorySessionRepository.empty) as [(_ & _ & _ & _ & H) _].
  apply (H 1%Z 2%Z); [lia | lia | reflexivity | reflexivity].
Defined.

End Pagination.

(** * The tool registry *)

Section ToolRegistry.
Import ToolRegistryService.

Variable JSON_stringify : JsValue -> string.
Variable String_ : JsValue -> string.

Lemma getTool_register (toolDef : ToolDefinition) (r : t) :
  getTool (tool_id toolDef) (register JSON_stringify String_ toolDef r) = Some toolDef.
Proof. unfold getTool, register. simpl. apply JsMap_get_set_eq. Qed.

(** The lookup that follows the deletion finds nothing, so the filter on
    the LLM tools never runs. *)
Lemma unregister_llmTools (toolId : string) (r : t) :
  llmTools (snd (unregister toolId r)) = llmTools r.
Proof.
  unfold unregister. destruct (JsMap.has toolId (tools r)); [|done].
  simpl. by rewrite JsMap_get_delete_eq.
Qed.

Lemma unregister_tools (toolId : string) (r : t) :
  tools (snd (unregister toolId r)) = JsMap.delete toolId (tools r).
Proof.
  unfold unregister. destruct (JsMap.has toolId (tools r)) eqn:E; [done |].
  simpl. symmetry. by apply JsMap_delete_absent.
Qed.

Lemma unregister_existed (toolId : string) (r : t) :
  fst (unregister toolId r) = JsMap.has toolId (tools r).
Proof. unfold unregister. by destruct (JsMap.has toolId (tools r)). Qed.

Lemma register_still_registered (toolDef : ToolDefinition) (r : t) :
  still_registered toolDef (register JSON_stringify String_ toolDef r).
Proof.
  split; simpl.
  - apply JsMap_has_set.
  - eexists. split; [apply in_or_app; right; by left | done].
Qed.

Lemma runOp_still_registered (toolDef : ToolDefinition) (op : RegistryOp) (r : t) :
  ~ unregisters (tool_id toolDef) op ->
  still_registered toolDef r ->
  still_registered toolDef (runOp JSON_stringify String_ op r).
Proof.
  intros Hop [Hhas (t0 & Hin & Hname)]. destruct op as [d | i]; simpl in *.
  - split; simpl.
    + unfold JsMap.has in *.
      destruct (decide (tool_id d = tool_id toolDef)) as [-> | Hne].
      * by rewrite JsMap_get_set_eq.
      * by rewrite JsMap_get_set_ne.
    + exists t0. split; [apply in_or_app; by left | done].
  - split.
    + rewrite unregister_tools. unfold JsMap.has in *.
      by rewrite JsMap_get_delete_ne.
    + rewrite unregister_llmTools. eauto.
Qed.

Lemma runOps_still_registered (toolDef : ToolDefinition) (ops : list RegistryOp) (r : t) :
  Forall (fun op => ~ unregisters (tool_id toolDef) op) ops ->
  still_registered toolDef r ->
  still_registered toolDef (runOps JSON_stringify String_ ops r).
Proof.
  intros Hops. revert r.
  induction Hops as [|op ops Hop _ IH]; intros r Hr; [done |].
  simpl. apply IH. by apply runOp_still_registered.
Qed.

(** C2: after [register(toolDef)], and whatever registrations and removals
    of other ids follow, [unregister(toolDef.id)] returns true and takes
    the definition out of the id-keyed Map, but leaves the list of LLM
    tools as it was, an entry named [toolDef.name] included. *)
Theorem unregister_keeps_llm_tool (toolDef : ToolDefinition) (ops : list RegistryOp)
    (r : t) :
  Forall (fun op => ~ unregisters (tool_id toolDef) op) ops ->
  let r1 := runOps JSON_stringify String_ ops (register JSON_stringify String_ toolDef r) in
  let r2 := snd (unregister (tool_id toolDef) r1) in
  fst (unregister (tool_id toolDef) r1) = true
  /\ getTool (tool_id toolDef) r2 = None
  /\ toolExists (tool_id toolDef) r2 = false
  /\ getToolsAsLLMTools r2 = getToolsAsLLMTools r1
  /\ exists t0, In t0 (getToolsAsLLMTools r2) /\ llm_name t0 = tool_name toolDef.
Proof.
  intros Hops r1 r2.
  destruct (runOps_still_registered toolDef ops
              (register JSON_stringify String_ toolDef r) Hops
              (register_still_registered toolDef r)) as [Hhas Hllm].
  fold r1 in Hhas, Hllm.
  assert (getTool (tool_id toolDef) r2 = None) as Hgone.
  { unfold getTool, r2. rewrite unregister_tools. apply JsMap_get_delete_eq. }
  split; [by rewrite unregister_existed |].
  split; [done |].
  split; [unfold toolExists, JsMap.has; unfold getTool in Hgone; by rewrite Hgone |].
  unfold getToolsAsLLMTools, r2. rewrite unregister_llmTools. done.
Qed.

(** C5: [execute] returns what the stored function returns; it throws a
    [ToolExecutionError] when no tool has that id and when the stored
    function throws, and in no other case. *)
Theorem ToolRegistry_execute (toolId : string) (input : JsValue) (r : t) :
  (forall d v,
      getTool toolId r = Some d -> tool_execute d input = Normal v ->
      execute String_ toolId input r = Normal v)
  /\ (getTool toolId r = None ->
      execute String_ toolId input r = Throw (ToolExecutionError toolId "Tool not found"))
  /\ (forall d e,
         getTool toolId r = Some d -> tool_execute d input = Throw e ->
         execute String_ toolId input r
         = Throw (ToolExecutionError (tool_name d) (reason_of String_ e)))
  /\ (forall t0,
         execute String_ toolId input r = Throw t0 ->
         isToolExecutionError t0 = true
         /\ (getTool toolId r = None
             \/ exists d e, getTool toolId r = Some d /\ tool_execute d input = Throw e)).
Proof.
  unfold execute. split; [|split; [|split]].
  - intros d v -> ->. done.
  - intros ->. done.
  - intros d e -> ->. done.
  - intros t0. destruct (getTool toolId r) as [d|] eqn:Hd.
    + destruct (tool_execute d input) as [v | e] eqn:He; [done |].
      intros [= <-]. split; [done |]. right. eauto.
    + intros [= <-]. split; [done | by left].
Qed.

End ToolRegistry.

Lemma unregister_keeps_llm_tool_witness :
  let r1 :=
    ToolRegistryService.register Samples.show Samples.show Samples.failing_tool
      (ToolRegistryService.register Samples.show Samples.show Samples.echo_tool
         ToolRegistryService.empty) in
  let r2 := snd (ToolRegistryService.unregister "echo-id" r1) in
  fst (ToolRegistryService.unregister "echo-id" r1) = true
  /\ ToolRegistryService.getTool "echo-id" r2 = None
  /\ List.map ToolRegistryService.llm_name (ToolRegistryService.getToolsAsLLMTools r2)
     = ["echo"; "boom"].
Proof.
  destruct (unregister_keeps_llm_tool Samples.show Samples.show Samples.echo_tool
              [OpRegister Samples.failing_tool] ToolRegistryService.empty)
    as (H1 & H2 & _).
  - constructor; [simpl; tauto | constructor].
  - split; [exact H1 |]. split; [exact H2 | reflexivity].
Defined.

Lemma ToolRegistry_execute_witness :
  let r :=
    ToolRegistryService.register Samples.show Samples.show Samples.failing_tool
      (ToolRegistryService.register Samples.show Samples.show Samples.echo_tool
         ToolRegistryService.empty) in
  ToolRegistryService.execute Samples.show "echo-id" (JsString "hi") r
  = Normal (JsString "hi")
  /\ ToolRegistryService.execute Samples.show "boom-id" JsNull r
     = Throw (ToolExecutionError "boom" "boom")
  /\ ToolRegistryService.execute Samples.show "missing" JsNull r
     = Throw (ToolExecutionError "missing" "Tool not found").
Proof.
  intros r. split; [|split].
  - destruct (ToolRegistry_execute Samples.show "echo-id" (JsString "hi") r) as (H & _).
    apply (H Samples.echo_tool); reflexivity.
  - destruct (ToolRegistry_execute Samples.show "boom-id" JsNull r) as (_ & _ & H & _).
    apply (H Samples.failing_tool (Error "boom")); reflexivity.
  - destruct (ToolRegistry_execute Samples.show "missing" JsNull r) as (_ & H & _).
    apply H. reflexivity.
Defined.

(** * Supervisor routing *)

Section Routing.
Import MultiAgentGraph.

Variable JSON_stringify : JsValue -> string.

Lemma prefix_spec (p s : string) :
  String.prefix p s = true <-> exists post, s = p +:+ post.
Proof.
  revert s. induction p as [|a p IH]; intros s.
  - split; [intros _; by exists s | intros _; by destruct s].
  - destruct s as [|b s]; simpl.
    + split; [done | intros [post H]; discriminate].
    + destruct (ascii_dec a b) as [-> | Hne].
      * rewrite IH. split; intros [post H]; exists post.
        -- rewrite H. reflexivity.
        -- change (String b s = String b (p +:+ post)) in H. congruence.
      * split; [done | intros [post H]].
        change (String b s = String a (p +:+ post)) in H. congruence.
Qed.

Lemma includes_unfold (s sub : string) :
  includes s sub
  = if String.prefix sub s then true
    else match s with
         | EmptyString => false
         | String _ s' => includes s' sub
         end.
Proof. by destruct s. Qed.

(** [includes] decides occurrence as a substring. *)
Lemma includes_spec (s sub : string) :
  includes s sub = true <-> occurs_in sub s.
Proof.
  unfold occurs_in. split.
  - induction s as [|c s IH]; rewrite includes_unfold;
      destruct (String.prefix sub _) eqn:E.
    + intros _. apply prefix_spec in E as [post E]. exists "", post. exact E.
    + discriminate.
    + intros _. apply prefix_spec in E as [post E]. exists "", post. exact E.
    + intros H. destruct (IH H) as (pre & post & ->).
      exists (String c pre), post. reflexivity.
  - intros (pre & post & ->). induction pre as [|c pre IH].
    + rewrite includes_unfold.
      change ("" +:+ sub +:+ post) with (sub +:+ post).
      assert (String.prefix sub (sub +:+ post) = true) as ->; [|done].
      apply prefix_spec. by exists post.
    + rewrite includes_unfold.
      change (String c pre +:+ sub +:+ post) with (String c (pre +:+ sub +:+ post)).
      destruct (String.prefix sub _); [done | exact IH].
Qed.

Lemma includes_false (s sub : string) :
  includes s sub = false <-> ~ occurs_in sub s.
Proof.
  rewrite <- includes_spec. by destruct (includes s sub).
Qed.

Lemma find_first {A : Type} (f : A -> bool) (pre post : list A) (w : A) :
  (forall x, In x pre -> f x = false) -> f w = true ->
  List.find f (pre ++ w :: post) = Some w.
Proof.
  intros Hpre Hw. induction pre as [|x pre IH]; simpl.
  - by rewrite Hw.
  - rewrite (Hpre x) by (by left). apply IH. intros y Hy. apply Hpre. by right.
Qed.

Lemma find_nobody {A : Type} (f : A -> bool) (l : list A) :
  (forall x, In x l -> f x = false) -> List.find f l = None.
Proof.
  intros H. destruct (List.find f l) as [x|] eqn:E; [|done].
  apply find_some in E as [Hin Hx]. rewrite (H x Hin) in Hx. done.
Qed.

(** Workers are kept in the order of their first registration. *)
Lemma registerWorker_order (name0 : string) (agent : WorkerAgent) (g : t) :
  JsMap.keys (workers (registerWorker name0 agent g))
  = if JsMap.has name0 (workers g) then JsMap.keys (workers g)
    else (JsMap.keys (workers g) ++ [name0])%list.
Proof. apply JsMap_keys_set. Qed.

(** C6: [routeWork] answers [end] once the iteration counter, 0 when
    absent, has reached [maxIterations]; below that it answers the first
    worker, in registration order, whose lower-cased name occurs in the
    lower-cased content of the last message, and [end] when there is none. *)
Theorem routeWork_routes (state : AgentState) (g : t) :
  let text := routedText JSON_stringify state in
  let reached := (maxIterations g <= default 0%Q (iterations state))%Q in
  (reached -> routeWork JSON_stringify state g = "end")
  /\ (~ reached ->
      forall pre w post,
        JsMap.keys (workers g) = (pre ++ w :: post)%list ->
        (forall x, In x pre -> ~ occurs_in (toLowerCase x) text) ->
        occurs_in (toLowerCase w) text ->
        routeWork JSON_stringify state g = w)
  /\ (~ reached ->
      (forall x, In x (JsMap.keys (workers g)) -> ~ occurs_in (toLowerCase x) text) ->
      routeWork JSON_stringify state g = "end")
  /\ (forall m s,
         last (messages state) = Some m -> content m = JsString s ->
         text = toLowerCase s).
Proof.
  intros text reached. unfold routeWork, num_ge. fold text.
  split; [|split; [|split]].
  - intros H. apply Qle_bool_iff in H. by rewrite H.
  - intros Hn pre w post Hk Hpre Hw.
    destruct (Qle_bool _ _) eqn:E; [by apply Qle_bool_iff in E |].
    rewrite Hk, (find_first _ pre post w); [done | | by apply includes_spec].
    intros x Hx. by apply includes_false, Hpre.
  - intros Hn Hnone.
    destruct (Qle_bool _ _) eqn:E; [by apply Qle_bool_iff in E |].
    rewrite find_nobody; [done |].
    intros x Hx. by apply includes_false, Hnone.
  - intros m s Hm Hc. unfold text, routedText, lastContent. by rewrite Hm, Hc.
Qed.

End Routing.

Lemma routeWork_routes_witness :
  let g :=
    MultiAgentGraph.registerWorker "Coder" Samples.idle_worker
      (MultiAgentGraph.registerWorker "Researcher" Samples.idle_worker
         (MultiAgentGraph.new None)) in
  let state iters :=
    {| MultiAgentGraph.messages :=
         [ {| MultiAgentGraph.content := JsString "Ask the CODER, then the researcher" |} ];
       MultiAgentGraph.query := "q"; MultiAgentGraph.iterations := iters;
       MultiAgentGraph.error := None; MultiAgentGraph.output := None |} in
  MultiAgentGraph.routeWork Samples.show (state (Some 10%Q)) g = "end"
  /\ MultiAgentGraph.routeWork Samples.show (state None) g = "Researcher".
Proof.
  intros g state. split.
  - destruct (routeWork_routes Samples.show (state (Some 10%Q)) g) as (H & _).
    apply H. unfold Qle. simpl. lia.
  - destruct (routeWork_routes Samples.show (state None) g) as (_ & H & _).
    apply (H ltac:(unfold Qle; simpl; lia) [] "Researcher" ["Coder"]).
    + reflexivity.
    + intros x [].
    + exists "ask the coder, then the ", "". reflexivity.
Defined.

(** * More facts about Maps *)

Lemma JsMap_has_keys {V : Type} (k : string) (m : JsMap.t V) :
  JsMap.has k m = true <-> In k (JsMap.keys m).
Proof.
  unfold JsMap.has. induction m as [|[k' v'] m IH]; simpl.
  - split; [done | intros []].
  - destruct (String.eqb k' k) eqn:E.
    + apply String.eqb_eq in E. split; [by left | done].
    + apply String.eqb_neq in E. rewrite IH. split; [by right | by intros [|]].
Qed.

Lemma JsMap_has_false_keys {V : Type} (k : string) (m : JsMap.t V) :
  JsMap.has k m = false <-> ~ In k (JsMap.keys m).
Proof.
  rewrite <- JsMap_has_keys. by destruct (JsMap.has k m).
Qed.

Lemma JsMap_get_In {V : Type} (k : string) (v : V) (m : JsMap.t V) :
  JsMap.get k m = Some v -> In (k, v) m.
Proof.
  induction m as [|[k' v'] m IH]; simpl; [done |].
  destruct (String.eqb k' k) eqn:E.
  - apply String.eqb_eq in E. intros [= ->]. left. by subst.
  - intros H. right. by apply IH.
Qed.

Lemma JsMap_In_get {V : Type} (k : string) (v : V) (m : JsMap.t V) :
  NoDup (JsMap.keys m) -> In (k, v) m -> JsMap.get k m = Some v.
Proof.
  induction m as [|[k' v'] m IH]; simpl; [done |].
  intros Hnd [Hin | Hin].
  - injection Hin as -> ->. by rewrite String.eqb_refl.
  - apply NoDup_cons in Hnd as [Hk Hnd].
    destruct (String.eqb k' k) eqn:E; [|by apply IH].
    apply String.eqb_eq in E. subst k'. exfalso. apply Hk.
    apply list_elem_of_In. change k with (fst (k, v)). by apply in_map.
Qed.

Lemma JsMap_keys_delete {V : Type} (k : string) (m : JsMap.t V) :
  JsMap.keys (JsMap.delete k m)
  = List.filter (fun k' => negb (String.eqb k' k)) (JsMap.keys m).
Proof.
  induction m as [|[k' v'] m IH]; simpl; [done |].
  destruct (String.eqb k' k); simpl; by rewrite <- IH.
Qed.

Lemma JsMap_NoDup_set {V : Type} (k : string) (v : V) (m : JsMap.t V) :
  NoDup (JsMap.keys m) -> NoDup (JsMap.keys (JsMap.set k v m)).
Proof.
  intros Hnd. rewrite JsMap_keys_set.
  destruct (JsMap.has k m) eqn:E; [done |].
  apply JsMap_has_false_keys in E.
  apply NoDup_app. split; [done |]. split.
  - intros x Hx Hx'. apply list_elem_of_singleton in Hx'. subst x.
    by apply list_elem_of_In in Hx.
  - apply NoDup_singleton.
Qed.

Lemma JsMap_NoDup_delete {V : Type} (k : string) (m : JsMap.t V) :
  NoDup (JsMap.keys m) -> NoDup (JsMap.keys (JsMap.delete k m)).
Proof.
  intros Hnd. rewrite JsMap_keys_delete.
  apply NoDup_ListNoDup, List.NoDup_filter. by apply NoDup_ListNoDup.
Qed.

Lemma JsMap_size_set {V : Type} (k : string) (v : V) (m : JsMap.t V) :
  JsMap.size (JsMap.set k v m)
  = if JsMap.has k m then JsMap.size m else S (JsMap.size m).
Proof.
  unfold JsMap.size, JsMap.has.
  induction m as [|[k' v'] m IH]; simpl; [done |].
  destruct (String.eqb k' k); simpl; [done |].
  rewrite IH. by destruct (JsMap.get k m).
Qed.

Lemma JsMap_size_delete {V : Type} (k : string) (m : JsMap.t V) :
  NoDup (JsMap.keys m) -> JsMap.has k m = true ->
  S (JsMap.size (JsMap.delete k m)) = JsMap.size m.
Proof.
  unfold JsMap.size.
  induction m as [|[k' v'] m IH]; simpl; [done |].
  intros Hnd Hhas. apply NoDup_cons in Hnd as [Hk Hnd].
  unfold JsMap.has in Hhas. simpl in Hhas.
  destruct (String.eqb k' k) eqn:E; simpl.
  - apply String.eqb_eq in E. subst k'. f_equal.
    change (List.length (JsMap.delete k m) = List.length m).
    rewrite JsMap_delete_absent; [done |].
    apply JsMap_has_false_keys. intros Hin. apply Hk. by apply list_elem_of_In.
  - f_equal. by apply IH.
Qed.

Lemma JsMap_Forall_set {V : Type} (P : string * V -> Prop) (k : string) (v : V)
    (m : JsMap.t V) :
  P (k, v) -> Forall P m -> Forall P (JsMap.set k v m).
Proof.
  intros Hkv Hm. induction Hm as [|[k' v'] m Hx Hm IH]; simpl.
  - by constructor.
  - destruct (String.eqb k' k); by constructor.
Qed.

Lemma JsMap_Forall_delete {V : Type} (P : string * V -> Prop) (k : string)
    (m : JsMap.t V) :
  Forall P m -> Forall P (JsMap.delete k m).
Proof.
  intros Hm. induction Hm as [|[k' v'] m Hx Hm IH]; simpl; [constructor |].
  destruct (String.eqb k' k); simpl; [done | by constructor].
Qed.

(** * The agent repository as a store *)

Section AgentStore.
Import AgentEntity InMemoryAgentRepository History.

(** X1: [save] is an upsert. The saved agent is found under its id, every
    other id reads as before, and the count grows by one exactly when the
    id was not stored yet. *)
Theorem AgentRepo_save_upsert (agent : Agent) (agents : InMemoryAgentRepository.t) :
  findById (getId agent) (save agent agents) = Some agent
  /\ exists_ (getId agent) (save agent agents) = true
  /\ (forall other, other <> getId agent ->
        findById other (save agent agents) = findById other agents)
  /\ count (save agent agents)
     = (if exists_ (getId agent) agents then count agents else S (count agents)).
Proof.
  unfold findById, exists_, save, count. split; [|split; [|split]].
  - apply JsMap_get_set_eq.
  - apply JsMap_has_set.
  - intros other Hne. by apply JsMap_get_set_ne.
  - apply JsMap_size_set.
Qed.

Lemma AgentRepo_save_upsert_witness :
  findById "test-id-2" (save Samples.sample_agent (save Samples.second_agent empty))
  = Some Samples.second_agent
  /\ count (save Samples.sample_agent (save Samples.sample_agent empty)) = 1.
Proof.
  destruct (AgentRepo_save_upsert Samples.sample_agent (save Samples.second_agent empty))
    as (_ & _ & H & _).
  destruct (AgentRepo_save_upsert Samples.sample_agent (save Samples.sample_agent empty))
    as (_ & _ & _ & Hc).
  split.
  - rewrite H; [reflexivity | discriminate].
  - rewrite Hc. reflexivity.
Defined.

(** X2: [update] throws on an id that is not stored; on a stored id it
    replaces the agent in place: the new agent is read back, the other ids,
    the count and the order of the ids stay as they were. *)
Theorem AgentRepo_update (agent : Agent) (agents : InMemoryAgentRepository.t) :
  (exists_ (getId agent) agents = false ->
   update agent agents
   = Throw (Error ("Agent with ID " +:+ getId agent +:+ " not found")))
  /\ (exists_ (getId agent) agents = true ->
      exists agents',
        update agent agents = Normal agents'
        /\ findById (getId agent) agents' = Some agent
        /\ (forall other, other <> getId agent ->
              findById other agents' = findById other agents)
        /\ count agents' = count agents
        /\ JsMap.keys agents' = JsMap.keys agents).
Proof.
  unfold update, exists_, findById, count. split; intros H; rewrite H; [done |].
  simpl. eexists. split; [done |]. split; [apply JsMap_get_set_eq |].
  split; [intros other Hne; by apply JsMap_get_set_ne |].
  split; [by rewrite JsMap_size_set, H | by rewrite JsMap_keys_set, H].
Qed.

Lemma AgentRepo_update_witness :
  update Samples.second_agent (save Samples.sample_agent empty)
  = Throw (Error "Agent with ID test-id-2 not found")
  /\ exists agents',
       update (deactivate 9%Z Samples.sample_agent)
         (save Samples.second_agent (save Samples.sample_agent empty))
       = Normal agents'
       /\ findById "test-id" agents' = Some (deactivate 9%Z Samples.sample_agent)
       /\ JsMap.keys agents' = ["test-id"; "test-id-2"].
Proof.
  split.
  - destruct (AgentRepo_update Samples.second_agent (save Samples.sample_agent empty))
      as [H _].
    apply H. reflexivity.
  - destruct (AgentRepo_update (deactivate 9%Z Samples.sample_agent)
                (save Samples.second_agent (save Samples.sample_agent empty)))
      as [_ H].
    destruct H as (agents' & Hu & Hf & _ & _ & Hk); [reflexivity |].
    exists agents'. split; [exact Hu |]. split; [exact Hf |].
    rewrite Hk. reflexivity.
Defined.

(** X3: after [delete] the id is gone and every other id reads as before;
    on a store whose ids are distinct, deleting a stored id lowers the
    count by exactly one. *)
Theorem AgentRepo_delete (agentId : string) (agents : InMemoryAgentRepository.t) :
  findById agentId (delete agentId agents) = None
  /\ exists_ agentId (delete agentId agents) = false
  /\ (forall other, other <> agentId ->
        findById other (delete agentId agents) = findById other agents)
  /\ (NoDup (JsMap.keys agents) -> exists_ agentId agents = true ->
      S (count (delete agentId agents)) = count agents).
Proof.
  unfold findById, exists_, delete, count, JsMap.has.
  split; [apply JsMap_get_delete_eq |].
  split; [by rewrite JsMap_get_delete_eq |].
  split; [intros other Hne; by apply JsMap_get_delete_ne |].
  apply JsMap_size_delete.
Qed.

Lemma AgentRepo_delete_witness :
  let agents := save Samples.second_agent (save Samples.sample_agent empty) in
  findById "test-id-2" (delete "test-id" agents) = Some Samples.second_agent
  /\ S (count (delete "test-id" agents)) = 2.
Proof.
  intros agents.
  destruct (AgentRepo_delete "test-id" agents) as (_ & _ & Ho & Hc).
  split.
  - rewrite Ho; [reflexivity | discriminate].
  - rewrite Hc; [reflexivity | | reflexivity].
    apply (bool_decide_unpack _). vm_compute. exact I.
Defined.

Lemma agentRepoCall_keyed (c : AgentRepoCall) (agents : InMemoryAgentRepository.t) :
  keyed_by_id agents -> keyed_by_id (agentRepoCall c agents).
Proof.
  intros [Hnd Hall]. destruct c as [a | a | i]; simpl.
  - split; [by apply JsMap_NoDup_set | by apply JsMap_Forall_set].
  - unfold update. destruct (negb _); [done |].
    split; [by apply JsMap_NoDup_set | by apply JsMap_Forall_set].
  - split; [by apply JsMap_NoDup_delete | by apply JsMap_Forall_delete].
Qed.

Lemma agentRepoCalls_keyed (cs : list AgentRepoCall) (agents : InMemoryAgentRepository.t) :
  keyed_by_id agents -> keyed_by_id (agentRepoCalls cs agents).
Proof.
  revert agents. induction cs as [|c cs IH]; intros agents H; [done |].
  simpl. apply IH. by apply agentRepoCall_keyed.
Qed.

Lemma keyed_ids_are_keys (agents : InMemoryAgentRepository.t) :
  Forall (fun kv => getId (snd kv) = fst kv) agents ->
  List.map getId (JsMap.values agents) = JsMap.keys agents.
Proof.
  intros Hall. induction Hall as [|[k a] m Hx Hm IH]; simpl; [done |].
  simpl in Hx. by f_equal.
Qed.

(** X4: whatever sequence of [save], [update] and [delete] calls built the
    repository, every stored agent sits under its own id: [findById] only
    returns an agent with the id asked for, no two stored agents share an
    id, and every listed agent is found again under its id. *)
Theorem AgentRepo_keyed_by_id (cs : list AgentRepoCall) :
  let agents := agentRepoCalls cs empty in
  (forall i a, findById i agents = Some a -> getId a = i)
  /\ NoDup (List.map getId (JsMap.values agents))
  /\ (forall a, In a (JsMap.values agents) -> findById (getId a) agents = Some a)
  /\ count agents = List.length (List.map getId (JsMap.values agents)).
Proof.
  intros agents.
  assert (keyed_by_id agents) as [Hnd Hall].
  { apply agentRepoCalls_keyed. split; [constructor | constructor]. }
  split; [|split; [|split]].
  - intros i a H. apply JsMap_get_In in H.
    rewrite List.Forall_forall in Hall. apply (Hall (i, a) H).
  - by rewrite keyed_ids_are_keys.
  - intros a Hin. apply in_map_iff in Hin as ([k a'] & Heq & Hin). simpl in Heq. subst a'.
    rewrite List.Forall_forall in Hall. pose proof (Hall (k, a) Hin) as Hk. simpl in Hk.
    unfold findById. rewrite Hk. by apply JsMap_In_get.
  - unfold count, JsMap.size, JsMap.values. by rewrite !length_map.
Qed.

Lemma AgentRepo_keyed_by_id_witness :
  let agents :=
    agentRepoCalls
      [CallSave Samples.sample_agent; CallSave Samples.second_agent;
       CallUpdate (deactivate 9%Z Samples.sample_agent); CallDelete "test-id-2"]
      empty in
  findById "test-id" agents = Some (deactivate 9%Z Samples.sample_agent)
  /\ getId (deactivate 9%Z Samples.sample_agent) = "test-id".
Proof.
  intros agents.
  destruct (AgentRepo_keyed_by_id
              [CallSave Samples.sample_agent; CallSave Samples.second_agent;
               CallUpdate (deactivate 9%Z Samples.sample_agent); CallDelete "test-id-2"])
    as (H & _).
  split; [reflexivity |]. apply H. reflexivity.
Defined.

End AgentStore.

(** * Pages that follow one another *)

Section Paging.
Import History.

Lemma number_or_whole (z : Z) (d : number) :
  (z = 0%Z -> d == 0)%Q -> (number_or (Some (inject_Z z)) d == inject_Z z)%Q.
Proof.
  intros Hd. unfold number_or, truthy_number.
  destruct (Qeq_bool (inject_Z z) 0) eqn:E; simpl; [|reflexivity].
  apply Qeq_bool_iff in E. rewrite E. apply Hd.
  unfold Qeq, inject_Z in E. simpl in E. lia.
Qed.

Lemma take_then_take {A : Type} (n m : nat) (l : list A) :
  (firstn n l ++ firstn m (skipn n l))%list = firstn (n + m) l.
Proof.
  revert l. induction n as [|n IH]; intros l; [done |].
  destruct l as [|x l]; simpl; [by rewrite take_nil | by rewrite IH].
Qed.

(** The page of a cursor with whole fields, [take] not zero. *)
Lemma whole_page {T : Type} (items : list T) (s t : Z) :
  (0 <= s)%Z -> (0 < t)%Z ->
  slice items (number_or (Some (inject_Z s)) 0%Q)
    (number_or (Some (inject_Z s)) 0%Q + number_or (Some (inject_Z t)) 10%Q)%Q
  = firstn (Z.to_nat t) (skipn (Z.to_nat s) items).
Proof.
  intros Hs Ht. apply slice_firstn_skipn; [done | lia | |].
  - apply number_or_whole. intros _. reflexivity.
  - apply number_or_whole. lia.
Qed.

(** X5: consecutive pages tile the listing. With whole, non-negative
    [skip] and positive [take], the page at [skip] of size [take] followed
    by the page at [skip + take] of size [take'] is the page at [skip] of
    size [take + take']; and a page holds [take] items or what is left
    after [skip], whichever is less. This holds for [findAll] and for
    [findByAgentId]. *)
Theorem pages_tile (s t t' : Z) (agentId : string)
    (agents : InMemoryAgentRepository.t) (sessions : InMemorySessionRepository.t) :
  (0 <= s)%Z -> (0 < t)%Z -> (0 < t')%Z ->
  (data (InMemoryAgentRepository.findAll (Some (cursor_of s t)) agents)
   ++ data (InMemoryAgentRepository.findAll (Some (cursor_of (s + t) t')) agents))%list
  = data (InMemoryAgentRepository.findAll (Some (cursor_of s (t + t'))) agents)
  /\ (data (InMemorySessionRepository.findByAgentId agentId (Some (cursor_of s t)) sessions)
      ++ data (InMemorySessionRepository.findByAgentId agentId
                 (Some (cursor_of (s + t) t')) sessions))%list
     = data (InMemorySessionRepository.findByAgentId agentId
               (Some (cursor_of s (t + t'))) sessions)
  /\ List.length (data (InMemoryAgentRepository.findAll (Some (cursor_of s t)) agents))
     = Nat.min (Z.to_nat t) (InMemoryAgentRepository.count agents - Z.to_nat s).
Proof.
  intros Hs Ht Ht'.
  assert (forall (T : Type) (l : list T),
             (firstn (Z.to_nat t) (skipn (Z.to_nat s) l)
              ++ firstn (Z.to_nat t') (skipn (Z.to_nat (s + t)) l))%list
             = firstn (Z.to_nat (t + t')) (skipn (Z.to_nat s) l)) as Htile.
  { intros T l. rewrite Z2Nat.inj_add by lia.
    rewrite <- drop_drop, take_then_take. f_equal. lia. }
  cbv beta iota zeta delta
    [InMemoryAgentRepository.findAll InMemorySessionRepository.findByAgentId
     InMemorySessionRepository.paginate data cursor_skip cursor_take cursor_of
     skip take].
  rewrite !whole_page by lia.
  split; [apply Htile | split; [apply Htile |]].
  rewrite length_take, length_drop.
  unfold InMemoryAgentRepository.count, JsMap.size, JsMap.values.
  by rewrite length_map.
Qed.

Lemma pages_tile_witness :
  let agents :=
    InMemoryAgentRepository.save Samples.third_agent
      (InMemoryAgentRepository.save Samples.second_agent
         (InMemoryAgentRepository.save Samples.sample_agent
            InMemoryAgentRepository.empty)) in
  (data (InMemoryAgentRepository.findAll (Some (cursor_of 0 1)) agents)
   ++ data (InMemoryAgentRepository.findAll (Some (cursor_of 1 2)) agents))%list
  = [Samples.sample_agent; Samples.second_agent; Samples.third_agent].
Proof.
  intros agents.
  destruct (pages_tile 0 1 2 "test-id" agents InMemorySessionRepository.empty)
    as (H & _); [lia | lia | lia |].
  change (0 + 1)%Z with 1%Z in H. rewrite H. reflexivity.
Defined.

End Paging.

(** * Queries and the expiry sweep of the session repository *)

Section SessionStore.
Import SessionEntity InMemorySessionRepository SessionSweep.

Lemma slice_In {A : Type} (l : list A) (a b : number) (x : A) :
  In x (slice l a b) -> In x l.
Proof.
  unfold slice. intros H. apply list_elem_of_In in H. apply list_elem_of_In.
  by eapply subseteq_drop, subseteq_take.
Qed.

Lemma slice_length {A : Type} (l : list A) (a b : number) :
  List.length (slice l a b) <= List.length l.
Proof.
  unfold slice. rewrite length_take, length_drop. lia.
Qed.

(** X6: whatever the cursor, [findByAgentId] only returns stored sessions
    of that agent and [findByStatus] only stored sessions in that status,
    never more of them than the total they report; [findActiveByAgentId]
    returns exactly the stored sessions of the agent that are active at
    the time of the call. *)
Theorem session_queries_sound (now : Date) (agentId0 : string)
    (status0 : SessionStatusEnum) (cursor : option PageCursor)
    (sessions : InMemorySessionRepository.t) (s : Session) :
  (In s (data (findByAgentId agentId0 cursor sessions)) ->
   getAgentId s = agentId0 /\ In s (JsMap.values sessions))
  /\ (In s (data (findByStatus status0 cursor sessions)) ->
      getStatus s = status0 /\ In s (JsMap.values sessions))
  /\ List.length (data (findByAgentId agentId0 cursor sessions))
     <= total (findByAgentId agentId0 cursor sessions)
  /\ List.length (data (findByStatus status0 cursor sessions))
     <= total (findByStatus status0 cursor sessions)
  /\ (In s (findActiveByAgentId now agentId0 sessions) <->
      In s (JsMap.values sessions) /\ getAgentId s = agentId0 /\ isActive now s = true).
Proof.
  unfold findByAgentId, findByStatus, findActiveByAgentId, paginate. simpl.
  split; [|split; [|split; [|split]]].
  - intros H. apply slice_In, filter_In in H as [Hin Hp].
    by apply String.eqb_eq in Hp.
  - intros H. apply slice_In, filter_In in H as [Hin Hp].
    by apply bool_decide_eq_true_1 in Hp.
  - apply slice_length.
  - apply slice_length.
  - rewrite filter_In, andb_true_iff, String.eqb_eq. tauto.
Qed.

Lemma session_queries_sound_witness :
  let sessions :=
    save Samples.active_session (save Samples.failed_session empty) in
  getStatus Samples.failed_session = FAILED
  /\ In Samples.failed_session (JsMap.values sessions).
Proof.
  intros sessions.
  destruct (session_queries_sound 5%Z "test-id" FAILED None sessions
              Samples.failed_session) as (_ & H & _).
  apply H. left. reflexivity.
Defined.

Lemma delete_middle {V : Type} (k : string) (v : V) (pre post : JsMap.t V) :
  NoDup (JsMap.keys (pre ++ (k, v) :: post)%list) ->
  JsMap.delete k (pre ++ (k, v) :: post)%list = (pre ++ post)%list.
Proof.
  intros Hnd. unfold JsMap.keys in Hnd. rewrite map_app in Hnd. simpl in Hnd.
  apply NoDup_app in Hnd as (_ & Hpre & Hpost).
  apply NoDup_cons in Hpost as [Hpost _].
  unfold JsMap.delete. rewrite List.filter_app. simpl. rewrite String.eqb_refl. simpl.
  f_equal.
  - apply (JsMap_delete_absent k pre), JsMap_has_false_keys.
    intros Hin. apply (Hpre k); [by apply list_elem_of_In | by left].
  - apply (JsMap_delete_absent k post), JsMap_has_false_keys.
    intros Hin. apply Hpost. by apply list_elem_of_In.
Qed.

Lemma NoDup_keys_remove {V : Type} (kv : string * V) (pre post : JsMap.t V) :
  NoDup (JsMap.keys (pre ++ kv :: post)%list) -> NoDup (JsMap.keys (pre ++ post)%list).
Proof.
  unfold JsMap.keys. rewrite !map_app. simpl. intros H.
  apply NoDup_app in H as (H1 & H2 & H3). apply NoDup_cons in H3 as [_ H3].
  apply NoDup_app. split; [done |]. split; [|done].
  intros x Hx Hx'. apply (H2 x Hx). by right.
Qed.

(** The sweep, from any point of its run: what is already behind the
    cursor is kept, what lies ahead is filtered. *)
Lemma sweep_filter (now : Date) (ahead behind : InMemorySessionRepository.t) (n : nat) :
  NoDup (JsMap.keys (behind ++ ahead)%list) ->
  sweep now ahead (behind ++ ahead)%list n
  = (n + List.length (List.filter (fun kv => expired now (snd kv)) ahead),
     (behind ++ List.filter (fun kv => negb (expired now (snd kv))) ahead)%list).
Proof.
  revert behind n. induction ahead as [|[k s] ahead IH]; intros behind n Hnd; simpl.
  - by rewrite Nat.add_0_r.
  - destruct (expired now s) eqn:E; simpl.
    + rewrite delete_middle by done.
      rewrite IH by (by eapply NoDup_keys_remove).
      f_equal. lia.
    + change (behind ++ (k, s) :: ahead)%list
        with (behind ++ [(k, s)] ++ ahead)%list.
      rewrite app_assoc. rewrite IH by (rewrite <- app_assoc; exact Hnd).
      by rewrite <- app_assoc.
Qed.

Lemma get_filter {V : Type} (f : V -> bool) (k : string) (m : JsMap.t V) :
  NoDup (JsMap.keys m) ->
  JsMap.get k (List.filter (fun kv => f (snd kv)) m)
  = match JsMap.get k m with
    | Some v => if f v then Some v else None
    | None => None
    end.
Proof.
  induction m as [|[k' v'] m IH]; simpl; [done |].
  intros Hnd. apply NoDup_cons in Hnd as [Hk Hnd].
  destruct (String.eqb k' k) eqn:E.
  - destruct (f v') eqn:Ef; simpl; [by rewrite E |].
    apply String.eqb_eq in E. subst k'.
    rewrite IH by done.
    assert (JsMap.get k m = None) as ->; [|done].
    destruct (JsMap.get k m) as [v|] eqn:G; [|done].
    exfalso. apply Hk, list_elem_of_In, JsMap_has_keys.
    unfold JsMap.has. by rewrite G.
  - destruct (f v'); simpl; [rewrite E |]; by apply IH.
Qed.

(** X7: on a store with distinct ids, [deleteExpiredSessions] removes
    exactly the sessions whose expiry lies before now: a session is found
    afterwards if and only if it was stored and has not expired (one
    without an expiry never goes), the sessions that stay keep their
    order, and the number returned is the number removed. *)
Theorem deleteExpiredSessions_sweeps (now : Date) (sessions : InMemorySessionRepository.t) :
  NoDup (JsMap.keys sessions) ->
  let n := fst (deleteExpiredSessions now sessions) in
  let sessions' := snd (deleteExpiredSessions now sessions) in
  (forall i s,
      findById i sessions' = Some s <->
      findById i sessions = Some s /\ expired now s = false)
  /\ sessions' = List.filter (fun kv => negb (expired now (snd kv))) sessions
  /\ n + JsMap.size sessions' = JsMap.size sessions.
Proof.
  intros Hnd n sessions'. unfold n, sessions', deleteExpiredSessions.
  pose proof (sweep_filter now sessions [] 0 Hnd) as Hs.
  change ([] ++ sessions)%list with sessions in Hs. rewrite Hs. simpl.
  split; [|split; [done |]].
  - intros i s. unfold findById.
    rewrite (get_filter (fun s0 => negb (expired now s0))) by done.
    destruct (JsMap.get i sessions) as [s0|]; [|split; [done | by intros [? _]]].
    destruct (expired now s0) eqn:E; simpl.
    + split; [done | intros [[= ->] H]; congruence].
    + split; [by intros [= ->] | by intros [[= ->] _]].
  - exact (List.filter_length (fun kv => expired now (snd kv)) sessions).
Qed.

Lemma deleteExpiredSessions_sweeps_witness :
  let sessions' := snd (deleteExpiredSessions 100%Z MoreSamples.three_sessions) in
  findById "s-2" sessions' = Some Samples.active_session
  /\ JsMap.keys sessions' = ["s-1"; "s-2"]
  /\ fst (deleteExpiredSessions 100%Z MoreSamples.three_sessions) = 1.
Proof.
  intros sessions'.
  destruct (deleteExpiredSessions_sweeps 100%Z MoreSamples.three_sessions)
    as (Hfind & Hfilter & Hcount).
  - apply (bool_decide_unpack _). vm_compute. exact I.
  - split; [|split].
    + apply Hfind. split; reflexivity.
    + unfold sessions'. rewrite Hfilter. reflexivity.
    + rewrite Hfilter in Hcount. simpl in Hcount.
      vm_compute in Hcount. vm_compute. lia.
Defined.

End SessionStore.

(** * The session entity over sequences of calls *)

Section SessionLife.
Import SessionEntity SessionMetadata.

Lemma note_reason_frame (key : string) (reason : option string) (s : Session) :
  sessionId (note_reason key reason s) = sessionId s
  /\ agentId (note_reason key reason s) = agentId s
  /\ createdAt (note_reason key reason s) = createdAt s
  /\ expiresAt (note_reason key reason s) = expiresAt s.
Proof.
  unfold note_reason. destruct reason as [r|]; [|done]. by destruct (truthy_string r).
Qed.

Lemma call_frame (c : SessionCall) (s : Session) :
  sessionId (call c s) = sessionId s
  /\ agentId (call c s) = agentId s
  /\ createdAt (call c s) = createdAt s.
Proof.
  destruct c; simpl;
    unfold pause, resume, complete, fail, interrupt, setExpiration, updateMetadata;
    try (destruct (note_reason_frame "failureReason" reason (with_status FAILED now s))
          as (-> & -> & -> & _); done);
    try (destruct (note_reason_frame "interruptReason" reason
                     (with_status INTERRUPTED now s)) as (-> & -> & -> & _); done);
    repeat match goal with
           | |- context [if ?b then _ else _] => destruct b
           end; done.
Qed.

(** X8: no sequence of [pause], [resume], [complete], [fail], [interrupt],
    [setExpiration] and [updateMetadata] calls changes a session's id, its
    agent id or its creation date. *)
Theorem Session_identity_is_stable (cs : list SessionCall) (s : Session) :
  sessionId (calls cs s) = sessionId s
  /\ agentId (calls cs s) = agentId s
  /\ createdAt (calls cs s) = createdAt s.
Proof.
  revert s. induction cs as [|c cs IH]; intros s; [done |].
  simpl. destruct (IH (call c s)) as (-> & -> & ->). apply call_frame.
Qed.

(** X9: [completed], [failed] and [interrupted] are final for the guarded
    methods: on such a session any sequence of [pause], [resume] and
    [complete] calls returns the session exactly as it was, its update
    date included. *)
Theorem Session_final_statuses (cs : list SessionCall) (s : Session) :
  Forall guarded cs ->
  status s = COMPLETED \/ status s = FAILED \/ status s = INTERRUPTED ->
  calls cs s = s.
Proof.
  intros Hcs Hs. induction Hcs as [|c cs Hc _ IH]; [done |].
  simpl. assert (call c s = s) as ->; [|done].
  destruct c; simpl in *; try done; unfold pause, resume, complete;
    destruct Hs as [-> | [-> | ->]]; done.
Qed.

Lemma Session_final_statuses_witness :
  calls [CallPause 5%Z; CallResume 6%Z; CallComplete 7%Z] Samples.failed_session
  = Samples.failed_session.
Proof.
  apply Session_final_statuses.
  - repeat constructor.
  - right. left. reflexivity.
Defined.

(** X10: a session is active exactly when its status is [active] and its
    expiry, if it has one, has not passed: an expired session is inactive
    although its status still reads [active]. Pausing makes an active
    session inactive, and resuming it afterwards makes it as active as it
    was, with its metadata and expiry untouched. *)
Theorem Session_activity (now n1 n2 : Date) (s : Session) :
  (isActive now s = true <->
   status s = ACTIVE /\ forall e, expiresAt s = Some e -> (now <= e)%Z)
  /\ isActive now (pause n1 s) = false
  /\ (status s = ACTIVE ->
      isActive now (resume n2 (pause n1 s)) = isActive now s
      /\ metadata (resume n2 (pause n1 s)) = metadata s
      /\ expiresAt (resume n2 (pause n1 s)) = expiresAt s).
Proof.
  split; [|split].
  - unfold isActive. destruct (expiresAt s) as [e|].
    + destruct (Z.ltb_spec e now) as [Hlt | Hge].
      * split; [done |]. intros [_ H]. specialize (H e eq_refl). lia.
      * rewrite bool_decide_eq_true. split.
        -- intros H. split; [done |]. by intros e' [= <-].
        -- by intros [H _].
    + rewrite bool_decide_eq_true. split; [by intros H | by intros [H _]].
  - unfold isActive, pause.
    destruct (bool_decide (status s = ACTIVE)) eqn:E; simpl.
    + by destruct (expiresAt s) as [e|]; [destruct (e <? now)%Z |].
    + apply bool_decide_eq_false_1 in E.
      destruct (expiresAt s) as [e|]; [destruct (e <? now)%Z; [done |] |];
        by apply bool_decide_eq_false_2.
  - intros Hs. unfold isActive, pause, resume. rewrite Hs. simpl.
    by destruct (expiresAt s) as [e|]; [destruct (e <? now)%Z |].
Qed.

Lemma Session_activity_witness :
  isActive 100%Z MoreSamples.expiring_session = false
  /\ status MoreSamples.expiring_session = ACTIVE
  /\ isActive 10%Z (resume 3%Z (pause 2%Z MoreSamples.expiring_session)) = true.
Proof.
  destruct (Session_activity 10%Z 2%Z 3%Z MoreSamples.expiring_session)
    as (Hiff & _ & Hround).
  split; [reflexivity |]. split; [reflexivity |].
  destruct (Hround eq_refl) as (-> & _).
  apply Hiff. split; [reflexivity |]. intros e [= <-]. lia.
Defined.



(** X12: [fail(reason)] records the reason under [failureReason] and
    [interrupt(reason)] under [interruptReason] only when the reason is a
    non-empty string, and touches no other metadata key; without a reason
    an earlier recorded reason stays. [updateMetadata] lets the new keys
    win and keeps the others. *)
Theorem Session_metadata_updates (now : Date) (reason : option string)
    (newMetadata : gmap string JsValue) (s : Session) (k : string) :
  (forall r, reason = Some r -> r <> "" ->
     metadata (fail now reason s) !! "failureReason" = Some (JsString r)
     /\ metadata (interrupt now reason s) !! "interruptReason" = Some (JsString r))
  /\ (reason = None \/ reason = Some "" ->
      metadata (fail now reason s) = metadata s
      /\ metadata (interrupt now reason s) = metadata s)
  /\ (k <> "failureReason" -> metadata (fail now reason s) !! k = metadata s !! k)
  /\ (k <> "interruptReason" -> metadata (interrupt now reason s) !! k = metadata s !! k)
  /\ metadata (updateMetadata now newMetadata s) !! k
     = match newMetadata !! k with
       | Some v => Some v
       | None => metadata s !! k
       end.
Proof.
  unfold fail, interrupt, note_reason, updateMetadata.
  split; [|split; [|split; [|split]]].
  - intros r -> Hr. destruct r; [done |]. simpl. by rewrite !lookup_insert_eq.
  - by intros [-> | ->].
  - intros Hk. destruct reason as [r|]; [|done].
    destruct (truthy_string r); [|done]. simpl. by rewrite lookup_insert_ne.
  - intros Hk. destruct reason as [r|]; [|done].
    destruct (truthy_string r); [|done]. simpl. by rewrite lookup_insert_ne.
  - simpl. rewrite lookup_union. by destruct (newMetadata !! k), (metadata s !! k).
Qed.

Lemma Session_metadata_updates_witness :
  metadata (fail 3%Z None (fail 2%Z (Some "timeout") Samples.active_session))
  !! "failureReason" = Some (JsString "timeout").
Proof.
  destruct (Session_metadata_updates 3%Z None ∅
              (fail 2%Z (Some "timeout") Samples.active_session) "failureReason")
    as (_ & Hkeep & _).
  destruct Hkeep as [-> _]; [by left |].
  destruct (Session_metadata_updates 2%Z (Some "timeout") ∅
              Samples.active_session "failureReason") as (Hset & _).
  destruct (Hset "timeout" eq_refl) as [H _]; [discriminate | exact H].
Defined.

End SessionLife.

(** * The agent entity and its id *)

Section AgentLife.
Import AgentEntity.

(** X13: [activate] and [deactivate] set the flag and nothing else but the
    update date; on an agent that already has the flag they return the
    agent as it is, update date included, so each is idempotent. *)
Theorem Agent_activation (n1 n2 : Date) (a : Agent) :
  isAgentActive (activate n1 a) = true
  /\ isAgentActive (deactivate n1 a) = false
  /\ (isAgentActive a = true -> activate n1 a = a)
  /\ (isAgentActive a = false -> deactivate n1 a = a)
  /\ activate n2 (activate n1 a) = activate n1 a
  /\ deactivate n2 (deactivate n1 a) = deactivate n1 a
  /\ getId (activate n1 a) = getId a /\ getConfig (activate n1 a) = getConfig a
  /\ getId (deactivate n1 a) = getId a /\ getConfig (deactivate n1 a) = getConfig a.
Proof.
  unfold isAgentActive, activate, deactivate, getId, getConfig.
  destruct a as [i c u cfg []]; simpl; repeat split; done.
Qed.

Lemma Agent_activation_witness :
  activate 9%Z Samples.sample_agent = Samples.sample_agent
  /\ deactivate 9%Z Samples.third_agent = Samples.third_agent.
Proof.
  destruct (Agent_activation 9%Z 9%Z Samples.sample_agent) as (_ & _ & H & _).
  destruct (Agent_activation 9%Z 9%Z Samples.third_agent) as (_ & _ & _ & H' & _).
  split; [apply H | apply H']; reflexivity.
Defined.

(** X14: when [updateConfig] returns, the agent has the merged
    configuration and the new update date, and the same id, creation date
    and active flag; a key that the update does not mention keeps its
    value. An update that sets [name], [type] or [llmConfig] to
    [undefined] throws; an update without keys succeeds on every agent that
    the constructor accepted. *)
Theorem Agent_updateConfig_frame (now : Date) (p : PartialAgentConfig) (a : Agent) :
  (forall a',
      updateConfig now p a = Normal a' ->
      id a' = id a /\ createdAt a' = createdAt a /\ isActive a' = isActive a
      /\ updatedAt a' = now /\ config a' = spread (config a) p
      /\ (p_name p = None -> name (config a') = name (config a))
      /\ (p_llmConfig p = None -> llmConfig (config a') = llmConfig (config a))
      /\ (p_maxIterations p = None ->
          maxIterations (config a') = maxIterations (config a)))
  /\ (p_name p = Some None \/ p_type p = Some None \/ p_llmConfig p = Some None ->
      exists msg, updateConfig now p a = Throw (Error msg))
  /\ (validateConfig (config a) = Normal tt ->
      exists a', updateConfig now Samples.no_update a = Normal a'
                 /\ config a' = config a).
Proof.
  unfold updateConfig. split; [|split].
  - intros a'. destruct (validateConfig (spread (config a) p)) as [[]|]; [|done].
    intros [= <-]. simpl. repeat split; by intros ->.
  - intros Hbad.
    destruct (validateConfig_outcome (spread (config a) p)) as [Hv | [msg ->]]; [|eauto].
    apply validateConfig_Normal in Hv as (Hn & Ht & Hm & _). exfalso.
    destruct Hbad as [H | [H | H]]; simpl in *; rewrite H in *; simpl in *.
    + done.
    + by destruct Ht.
    + done.
  - intros Hv.
    assert (spread (config a) Samples.no_update = config a) as ->
        by (by destruct (config a)).
    rewrite Hv. eauto.
Qed.

Lemma Agent_updateConfig_frame_witness :
  exists a',
    updateConfig 5%Z Samples.update_maxIterations_20 Samples.sample_agent = Normal a'
    /\ id a' = "test-id"
    /\ name (config a') = Some "Test Agent"
    /\ maxIterations (config a') = Some 20%Q.
Proof.
  destruct (Agent_updateConfig_frame 5%Z Samples.update_maxIterations_20
              Samples.sample_agent) as (H & _).
  eexists. split; [reflexivity |].
  edestruct H as (Hid & _ & _ & _ & _ & Hname & _); [reflexivity |].
  split; [exact Hid |]. split; [by apply Hname | reflexivity].
Defined.

(** X15: an [AgentId] can be built exactly from the strings that are not
    empty after trimming, it hands back the string it was built from, and
    [equals] holds exactly between ids of the same string. *)
Theorem AgentId_value_object (v : string) (a b : AgentIdValue.AgentId) :
  (trim v = "" -> AgentIdValue.new v = Throw (Error "AgentId cannot be empty"))
  /\ (trim v <> "" ->
      exists i, AgentIdValue.new v = Normal i
                /\ AgentIdValue.getValue i = v
                /\ AgentIdValue.toString i = v
                /\ AgentIdValue.toJSON i = v)
  /\ (AgentIdValue.equals a b = true <-> a = b).
Proof.
  unfold AgentIdValue.new.
  assert (negb (truthy_string v) || Nat.eqb (String.length (trim v)) 0 = true
          <-> trim v = "") as Hblank.
  { rewrite orb_true_iff, Nat.eqb_eq, string_length_zero. split; [|by right].
    intros [H | H]; [|done]. by destruct v. }
  split; [|split].
  - intros H. apply Hblank in H. by rewrite H.
  - intros H.
    assert (negb (truthy_string v) || Nat.eqb (String.length (trim v)) 0 = false) as ->.
    { apply not_true_is_false. by rewrite Hblank. }
    eexists. by repeat split.
  - unfold AgentIdValue.equals. rewrite String.eqb_eq.
    destruct a as [x], b as [y]; simpl. split; congruence.
Qed.

Lemma AgentId_value_object_witness :
  AgentIdValue.new "  " = Throw (Error "AgentId cannot be empty")
  /\ exists i, AgentIdValue.new "agent-1" = Normal i /\ AgentIdValue.getValue i = "agent-1".
Proof.
  destruct (AgentId_value_object "  " (AgentIdValue.mkAgentId "a") (AgentIdValue.mkAgentId "a"))
    as (H & _).
  destruct (AgentId_value_object "agent-1" (AgentIdValue.mkAgentId "a")
              (AgentIdValue.mkAgentId "a")) as (_ & H' & _).
  split; [apply H; reflexivity |].
  destruct H' as (i & Hi & Hv & _); [discriminate |]. eauto.
Defined.

End AgentLife.

(** * The use cases together *)

Section UseCases.
Import AgentEntity.

Lemma JsMap_set_In_values {V : Type} (k : string) (v : V) (m : JsMap.t V) :
  In v (JsMap.values (JsMap.set k v m)).
Proof.
  induction m as [|[k' v'] m IH]; simpl; [by left |].
  destruct (String.eqb k' k); simpl; [by left | by right].
Qed.

(** X16: [GetAgentUseCase] returns the stored agent or throws
    [AgentNotFoundError] for the id. It returns the agent that
    [CreateAgentUseCase] has just returned, and throws once that agent is
    deleted from the repository. *)
Theorem GetAgent_after_create (uuid : string) (now : Date) (c : AgentConfig)
    (agentId : string) (repo : InMemoryAgentRepository.t) :
  (forall a,
      GetAgentUseCase.execute agentId repo = Normal a <->
      InMemoryAgentRepository.findById agentId repo = Some a)
  /\ (InMemoryAgentRepository.exists_ agentId repo = false ->
      GetAgentUseCase.execute agentId repo = Throw (AgentNotFoundError agentId))
  /\ (forall agent repo',
         CreateAgentUseCase.execute uuid now (Some c) repo = (Normal agent, repo') ->
         GetAgentUseCase.execute (getId agent) repo' = Normal agent
         /\ GetAgentUseCase.execute (getId agent)
              (InMemoryAgentRepository.delete (getId agent) repo')
            = Throw (AgentNotFoundError (getId agent))).
Proof.
  unfold GetAgentUseCase.execute, InMemoryAgentRepository.exists_, JsMap.has,
    InMemoryAgentRepository.findById.
  split; [|split].
  - intros a. destruct (JsMap.get agentId repo); split; congruence.
  - by destruct (JsMap.get agentId repo).
  - intros agent repo' H.
    destruct (execute_outcome uuid now (Some c) repo)
      as [(c' & a & _ & He & _) | (reason & He)]; rewrite He in H; [|done].
    injection H as <- <-.
    unfold InMemoryAgentRepository.save, InMemoryAgentRepository.delete.
    by rewrite JsMap_get_set_eq, JsMap_get_delete_eq.
Qed.

Lemma GetAgent_after_create_witness :
  exists agent repo',
    CreateAgentUseCase.execute "test-id" 1%Z (Some Samples.sample_config)
      InMemoryAgentRepository.empty = (Normal agent, repo')
    /\ GetAgentUseCase.execute "test-id" repo' = Normal agent
    /\ GetAgentUseCase.execute "nobody" repo' = Throw (AgentNotFoundError "nobody").
Proof.
  eexists. eexists. split; [reflexivity |].
  destruct (GetAgent_after_create "test-id" 1%Z Samples.sample_config "nobody"
              InMemoryAgentRepository.empty) as (_ & _ & H).
  edestruct H as [Hget _]; [reflexivity |].
  split; [exact Hget |].
  match goal with
  | |- GetAgentUseCase.execute _ ?r = _ =>
      destruct (GetAgent_after_create "test-id" 1%Z Samples.sample_config "nobody" r)
        as (_ & Hmiss & _)
  end.
  apply Hmiss. reflexivity.
Defined.

(** X17: names stay unique through the use case. Once [execute] has
    returned an agent for a configuration, a second [execute] with the same
    configuration throws the already-exists error and stores nothing,
    whatever id and date it is given. *)
Theorem CreateAgent_twice (uuid uuid' : string) (now now' : Date) (c : AgentConfig)
    (repo repo' : InMemoryAgentRepository.t) (agent : Agent) :
  CreateAgentUseCase.execute uuid now (Some c) repo = (Normal agent, repo') ->
  CreateAgentUseCase.execute uuid' now' (Some c) repo'
  = (Throw (InvalidAgentConfigError
              ("Agent with name " +:+ dquote +:+ interpolate (name c) +:+ dquote
               +:+ " already exists")), repo').
Proof.
  intros H.
  destruct (execute_outcome uuid now (Some c) repo)
    as [(c' & a & [= <-] & He & Hv & _ & Hnew) | (reason & He)]; rewrite He in H;
    [|done].
  injection H as <- <-.
  apply new_Normal_inv in Hnew as (_ & Hc & _).
  unfold CreateAgentUseCase.execute. rewrite Hv.
  destruct (findByName_stored (name c) (InMemoryAgentRepository.save a repo))
    as [found ->]; [|done].
  exists a. split; [apply JsMap_set_In_values |].
  unfold getName. by rewrite Hc.
Qed.

Lemma CreateAgent_twice_witness :
  exists agent repo',
    CreateAgentUseCase.execute "id-1" 1%Z (Some Samples.sample_config)
      InMemoryAgentRepository.empty = (Normal agent, repo')
    /\ exists reason,
         CreateAgentUseCase.execute "id-2" 2%Z (Some Samples.sample_config) repo'
         = (Throw (InvalidAgentConfigError reason), repo').
Proof.
  eexists. eexists. split; [reflexivity |].
  eexists.
  eapply (CreateAgent_twice "id-1" "id-2" 1%Z 2%Z Samples.sample_config
            InMemoryAgentRepository.empty).
  reflexivity.
Defined.

(** X18: a configuration that passes the use case's own checks but trips
    one of the entity's numeric guards is rejected as an
    [InvalidAgentConfigError] that carries the entity's message, and
    nothing is stored. *)
Theorem CreateAgent_wraps_entity_errors (uuid : string) (now : Date) (c : AgentConfig)
    (repo : InMemoryAgentRepository.t) (x : number) :
  config_invariant c ->
  (forall a, In a (JsMap.values repo) -> getName a <> name c) ->
  (maxIterations c = Some x -> (0 < x /\ x < 1)%Q ->
   CreateAgentUseCase.execute uuid now (Some c) repo
   = (Throw (InvalidAgentConfigError "Max iterations must be greater than 0"), repo))
  /\ (timeoutMs c = Some x -> (x < 0)%Q ->
      maxIterations_guard (maxIterations c) = false ->
      CreateAgentUseCase.execute uuid now (Some c) repo
      = (Throw (InvalidAgentConfigError "Timeout must be greater than 0"), repo)).
Proof.
  intros (Hn & Ht & Hm) Hfresh.
  apply name_blank_false in Hn. apply model_missing_false in Hm.
  assert (CreateAgentUseCase.validateConfig (Some c) = Normal tt) as Hv.
  { apply usecase_validateConfig_Normal. by exists c. }
  unfold CreateAgentUseCase.execute. rewrite Hv, findByName_fresh by done.
  unfold new, validateConfig. rewrite Hn, Hm, bool_decide_eq_true_2 by done. simpl.
  split.
  - intros Hx Hr. apply maxIterations_guard_spec in Hr. by rewrite Hx, Hr.
  - intros Hx Hr Hg. apply timeoutMs_guard_spec in Hr. by rewrite Hg, Hx, Hr.
Qed.

Lemma CreateAgent_wraps_entity_errors_witness :
  CreateAgentUseCase.execute "id" 1%Z
    (Some (Samples.with_limits (Some 5%Q) (Some (-1)%Q) Samples.sample_config))
    InMemoryAgentRepository.empty
  = (Throw (InvalidAgentConfigError "Timeout must be greater than 0"),
     InMemoryAgentRepository.empty).
Proof.
  destruct (CreateAgent_wraps_entity_errors "id" 1%Z
              (Samples.with_limits (Some 5%Q) (Some (-1)%Q) Samples.sample_config)
              InMemoryAgentRepository.empty (-1)%Q) as [_ H].
  - split; [|split].
    + exists "Test Agent". split; [reflexivity | discriminate].
    + exists GENERAL. reflexivity.
    + exists Samples.sample_llm, "gpt-4".
      split; [reflexivity | split; [reflexivity | discriminate]].
  - intros a [].
  - apply H; [reflexivity | reflexivity | reflexivity].
Defined.

End UseCases.

(** * The tool registry over sequences of calls *)

Section RegistryLife.
Import ToolRegistryService RegistryHistory.

Variable JSON_stringify : JsValue -> string.
Variable String_ : JsValue -> string.

Lemma runOp_llmTools (op : RegistryOp) (r : t) :
  exists extra,
    llmTools (runOp JSON_stringify String_ op r) = (llmTools r ++ extra)%list
    /\ List.length extra = (if is_register op then 1 else 0).
Proof.
  destruct op as [d | i]; simpl.
  - eexists. split; [reflexivity | done].
  - exists []. rewrite unregister_llmTools. by rewrite app_nil_r.
Qed.

Lemma runOps_llmTools (ops : list RegistryOp) (r : t) :
  exists extra,
    llmTools (runOps JSON_stringify String_ ops r) = (llmTools r ++ extra)%list
    /\ List.length extra = registrations ops.
Proof.
  revert r. induction ops as [|op ops IH]; intros r.
  - exists []. by rewrite app_nil_r.
  - simpl. destruct (IH (runOp JSON_stringify String_ op r)) as (e2 & -> & H2).
    destruct (runOp_llmTools op r) as (e1 & -> & H1).
    exists (e1 ++ e2)%list. rewrite app_assoc. split; [done |].
    unfold registrations in *. simpl. rewrite length_app, H1, H2.
    by destruct (is_register op).
Qed.

Lemma runOp_keyed (op : RegistryOp) (r : t) :
  keyed_by_tool_id r -> keyed_by_tool_id (runOp JSON_stringify String_ op r).
Proof.
  intros [Hnd Hall]. destruct op as [d | i]; simpl.
  - split; simpl; [by apply JsMap_NoDup_set | by apply JsMap_Forall_set].
  - unfold keyed_by_tool_id. rewrite unregister_tools.
    split; [by apply JsMap_NoDup_delete | by apply JsMap_Forall_delete].
Qed.

Lemma runOps_keyed (ops : list RegistryOp) (r : t) :
  keyed_by_tool_id r -> keyed_by_tool_id (runOps JSON_stringify String_ ops r).
Proof.
  revert r. induction ops as [|op ops IH]; intros r H; [done |].
  simpl. apply IH. by apply runOp_keyed.
Qed.

(** X19: the list of LLM tools has one entry for every [register] call
    ever made: [unregister] removes none and registering an id again adds
    another. The definitions, meanwhile, stay one per id, each under its
    own id, so there are never more definitions than LLM tools. *)
Theorem llm_tools_only_grow (ops : list RegistryOp) :
  let r := runOps JSON_stringify String_ ops empty in
  List.length (getToolsAsLLMTools r) = registrations ops
  /\ NoDup (List.map tool_id (getAllTools r))
  /\ (forall i d, getTool i r = Some d -> tool_id d = i)
  /\ List.length (getAllTools r) <= List.length (getToolsAsLLMTools r).
Proof.
  intros r.
  destruct (runOps_llmTools ops empty) as (extra & Hllm & Hlen). fold r in Hllm.
  assert (keyed_by_tool_id r) as [Hnd Hall].
  { apply runOps_keyed. split; constructor. }
  assert (List.map tool_id (getAllTools r) = JsMap.keys (tools r)) as Hids.
  { unfold getAllTools. clear Hnd. induction Hall as [|[k d] m Hx Hm IH]; simpl; [done |].
    simpl in Hx. by f_equal. }
  unfold getToolsAsLLMTools. rewrite Hllm. simpl.
  split; [done |]. split; [by rewrite Hids |]. split.
  - intros i d H. apply JsMap_get_In in H.
    rewrite List.Forall_forall in Hall. apply (Hall (i, d) H).
  - rewrite Hlen. unfold getAllTools, JsMap.values. rewrite length_map.
    clear Hllm Hlen Hnd Hall Hids extra. subst r.
    induction ops as [|op ops IH] using rev_ind; [simpl; lia |].
    unfold runOps, registrations in *. rewrite fold_left_app, List.filter_app, length_app.
    simpl. destruct op as [d | i]; simpl.
    + pose proof (JsMap_size_set (tool_id d) d
                    (tools (fold_left (fun acc op => runOp JSON_stringify String_ op acc)
                              ops empty))) as Hs.
      unfold JsMap.size in Hs. rewrite Hs. destruct (JsMap.has _ _); lia.
    + rewrite unregister_tools. unfold JsMap.delete.
      pose proof (List.filter_length_le
                    (fun kv : string * ToolDefinition => negb (String.eqb (fst kv) i))
                    (tools (fold_left (fun acc op => runOp JSON_stringify String_ op acc)
                              ops empty))).
      lia.
Qed.



End RegistryLife.


Lemma llm_tools_only_grow_witness :
  let r :=
    runOps Samples.show Samples.show
      [OpRegister Samples.echo_tool; OpRegister Samples.echo_tool;
       OpUnregister "echo-id"]
      ToolRegistryService.empty in
  List.length (ToolRegistryService.getToolsAsLLMTools r) = 2
  /\ ToolRegistryService.getAllTools r = [].
Proof.
  intros r.
  destruct (llm_tools_only_grow Samples.show Samples.show
              [OpRegister Samples.echo_tool; OpRegister Samples.echo_tool;
               OpUnregister "echo-id"]) as (H & _).
  split; [exact H | reflexivity].
Defined.


(** * The LLM service: validation and the instance cache *)

Section LLMValidation.
Import OpenAILLMService.







End LLMValidation.

Section LLMService.
Import OpenAILLMService.

Variable Number_toString : number -> string.

(** X23: the cache key leaves [topP] out and a hit skips validation. Once
    [getLLM] has built an instance for an accepted configuration, every
    configuration that differs from it at most in [topP] gets that same
    instance, which carries the first configuration's [topP], even when
    the new [topP] would not pass validation; the cache is not touched.
    On a miss, a rejected configuration makes [getLLM] throw 'Failed to
    initialize LLM: ...' and leaves the cache as it was. *)
Theorem LLM_cache_ignores_topP (c c2 : LLMModelConfig) (svc : t) :
  JsMap.get (generateCacheKey Number_toString c) (llmCache svc) = None ->
  (validateConfig c = Normal c ->
   same_but_topP c c2 ->
   exists llm svc',
     getLLM Number_toString c svc = (Normal llm, svc')
     /\ llm_topP llm = topP c
     /\ llm_model llm = modelName c
     /\ getLLM Number_toString c2 svc' = (Normal llm, svc'))
  /\ (forall msg,
         validateConfig c = Throw (Error msg) ->
         getLLM Number_toString c svc
         = (Throw (Error ("Failed to initialize LLM: " +:+ msg)), svc)).
Proof.
  intros Hmiss. unfold getLLM. rewrite Hmiss. split.
  - intros Hv (Hp & Hm & Ht & Hk). rewrite Hv.
    eexists. eexists. split; [reflexivity |]. split; [done |]. split; [done |].
    assert (generateCacheKey Number_toString c2 = generateCacheKey Number_toString c) as ->.
    { unfold generateCacheKey. by rewrite Hp, Hm, Ht, Hk. }
    simpl. by rewrite JsMap_get_set_eq.
  - intros msg Hv. by rewrite Hv.
Qed.

End LLMService.

Lemma LLM_cache_ignores_topP_witness :
  exists llm svc',
    OpenAILLMService.getLLM MoreSamples.show_number Samples.sample_llm
      MoreSamples.sample_service = (Normal llm, svc')
    /\ OpenAILLMService.llm_topP llm = None
    /\ OpenAILLMService.validateConfig MoreSamples.wild_topP_llm
       = Throw (Error "topP must be between 0 and 1")
    /\ OpenAILLMService.getLLM MoreSamples.show_number MoreSamples.wild_topP_llm svc'
       = (Normal llm, svc').
Proof.
  destruct (LLM_cache_ignores_topP MoreSamples.show_number Samples.sample_llm
              MoreSamples.wild_topP_llm MoreSamples.sample_service) as [H _];
    [reflexivity |].
  destruct H as (llm & svc' & H1 & H2 & _ & H4); [reflexivity | by repeat split |].
  exists llm, svc'. split; [exact H1 |]. split; [exact H2 |].
  split; [reflexivity | exact H4].
Defined.

(** * The graphs' nodes and their routing *)

Section SupervisorLoop.
Import AgentStateAnnotation MultiAgentNodes.

Variable invoke :
  list MultiAgentGraph.BaseMessage -> Completion MultiAgentGraph.BaseMessage.
Variable Number_toString : number -> string.
Variable JSON_stringify : JsValue -> string.

Lemma step_keeps_counter (g : MultiAgentGraph.t) (n : Node) (s : State) :
  iterations (step invoke Number_toString g n s) = iterations s
  /\ query (step invoke Number_toString g n s) = query s.
Proof.
  destruct n as [|w]; simpl.
  - unfold supervisorNode. by destruct (invoke _).
  - unfold workerNode. destruct (JsMap.get w _) as [worker|]; [|done].
    by destruct (MultiAgentGraph.run worker _).
Qed.

Lemma steps_keep_counter (g : MultiAgentGraph.t) (ns : list Node) (s : State) :
  iterations (steps invoke Number_toString g ns s) = iterations s
  /\ query (steps invoke Number_toString g ns s) = query s.
Proof.
  revert s. induction ns as [|n ns IH]; intros s; [done |].
  simpl. destruct (IH (step invoke Number_toString g n s)) as [-> ->].
  apply step_keeps_counter.
Qed.

(** X24: neither the supervisor node nor a worker node writes the
    iteration counter or the query, so after any number of their steps
    both are what they were. From the state [run(query)] starts with, whose
    counter is 0, the cap in [routeWork] therefore never comes into play
    when [maxIterations] is positive: as long as the last message names a
    worker, [routeWork] routes to the first such worker. *)
Theorem supervisor_loop_is_uncapped (g : MultiAgentGraph.t) (ns : list Node)
    (s0 : State) (startedAt query0 : string) :
  (iterations (steps invoke Number_toString g ns s0) = iterations s0
   /\ query (steps invoke Number_toString g ns s0) = query s0)
  /\ let s := steps invoke Number_toString g ns (initial_state g startedAt query0) in
     let text := MultiAgentGraph.routedText JSON_stringify (routing_view s) in
     (0 < MultiAgentGraph.maxIterations g)%Q ->
     forall pre w post,
       JsMap.keys (MultiAgentGraph.workers g) = (pre ++ w :: post)%list ->
       (forall x, In x pre -> ~ occurs_in (toLowerCase x) text) ->
       occurs_in (toLowerCase w) text ->
       MultiAgentGraph.routeWork JSON_stringify (routing_view s) g = w.
Proof.
  split; [apply steps_keep_counter |].
  intros s text Hmax pre w post Hk Hpre Hw.
  unfold MultiAgentGraph.routeWork. fold text.
  destruct (steps_keep_counter g ns (initial_state g startedAt query0)) as [Hit _].
  fold s in Hit.
  change (MultiAgentGraph.iterations (routing_view s)) with (iterations s).
  rewrite Hit. simpl. unfold num_ge.
  destruct (Qle_bool (MultiAgentGraph.maxIterations g) 0) eqn:E.
  - apply Qle_bool_iff in E. by apply Qlt_not_le in Hmax.
  - rewrite Hk, (find_first _ pre post w); [done | | by apply includes_spec].
    intros x Hx. by apply includes_false, Hpre.
Qed.

End SupervisorLoop.

Section HumanReview.
Import AgentStateAnnotation HITLAgentGraph.

Variable Msg : Type.

(** X25: the review node stamps the state with the approval [pending], so
    routing straight after it always answers [needs_revision]: without a
    change to the state from outside, the plan is never executed. After
    [processHumanFeedback] the routing answers the feedback that was
    given; and whatever the state, the answer is one of the three routes.
    The plan put up for review is the stored one, or the text 'No plan
    generated' when none is stored. *)
Theorem review_asks_for_revision (receivedAt : string) (s : AgentState Msg)
    (f : Feedback) (notes : option string) :
  processApproval (reduce s (humanReviewNode s)) = "needs_revision"
  /\ processApproval (processHumanFeedback receivedAt s f notes) = feedback_string f
  /\ (processApproval s = "approved" \/ processApproval s = "rejected"
      \/ processApproval s = "needs_revision")
  /\ meta "pendingPlan" (reduce s (humanReviewNode s))
     = (if truthy (meta "plan" s) then meta "plan" s else JsString "No plan generated")
  /\ (metadata s !! "plan" = None ->
      meta "pendingPlan" (reduce s (humanReviewNode s)) = JsString "No plan generated").
Proof.
  assert (meta "pendingPlan" (reduce s (humanReviewNode s))
          = (if truthy (meta "plan" s) then meta "plan" s
             else JsString "No plan generated")) as Hplan.
  { unfold meta, reduce, humanReviewNode. simpl.
    erewrite lookup_union_Some_l; [done |].
    rewrite lookup_insert_ne by done. by rewrite lookup_insert_eq. }
  split; [|split; [|split; [|split]]].
  - unfold processApproval, meta, reduce, humanReviewNode. simpl.
    erewrite lookup_union_Some_l; [|by rewrite lookup_insert_eq]. done.
  - unfold processApproval, meta, processHumanFeedback. simpl.
    rewrite !lookup_insert_ne by done. rewrite lookup_insert_eq. by destruct f.
  - unfold processApproval. destruct (meta "humanApproval" s); auto.
    repeat match goal with
           | |- context [if ?b then _ else _] => destruct b
           end; auto.
  - exact Hplan.
  - intros Hnone. rewrite Hplan. unfold meta. by rewrite Hnone.
Qed.

End HumanReview.

Section AgentLoop.
Import AgentStateAnnotation BasicAgentGraph.

Variable llm_invoke : list Message -> Completion Message.
Variable String_ : JsValue -> string.




End AgentLoop.

Section MemoryService.
Import InMemoryMemoryService.

Variable Msg : Type.

(** X27: [addMessage] appends to the session's array in place. The
    session's messages afterwards are the old ones followed by the new
    one (starting from none for a session without memory); any other
    session that holds the same array sees the new message too; and a
    session that holds a different array keeps its messages. *)
Theorem memory_addMessage_appends (sessionId other : string) (message : Msg)
    (memory : InMemoryMemoryService.t) (h : Heap Msg) :
  let memory' := fst (addMessage sessionId message memory h) in
  let h' := snd (addMessage sessionId message memory h) in
  contents sessionId memory' h' = (contents sessionId memory h ++ [message])%list
  /\ hasMemory sessionId memory' = true
  /\ (forall r,
         JsMap.get sessionId memory = Some r -> JsMap.get other memory = Some r ->
         contents other memory' h' = (contents other memory h ++ [message])%list)
  /\ (forall r,
         other <> sessionId ->
         JsMap.get other memory = Some r -> JsMap.get sessionId memory <> Some r ->
         r < next h ->
         contents other memory' h' = contents other memory h).
Proof.
  unfold addMessage, stored_or_new, contents, hasMemory, read, write, alloc.
  destruct (JsMap.get sessionId memory) as [r0|] eqn:G; simpl.
  - split; [by rewrite JsMap_get_set_eq, lookup_insert_eq |].
    split; [apply JsMap_has_set |]. split.
    + intros r [= <-] Ho.
      destruct (decide (sessionId = other)) as [-> | Hne].
      * by rewrite JsMap_get_set_eq, lookup_insert_eq, Ho.
      * rewrite JsMap_get_set_ne, Ho by done. by rewrite lookup_insert_eq.
    + intros r Hne Ho Hr _.
      rewrite JsMap_get_set_ne, Ho by done.
      rewrite lookup_insert_ne; [done | congruence].
  - split; [by rewrite JsMap_get_set_eq, !lookup_insert_eq |].
    split; [apply JsMap_has_set |]. split; [done |].
    intros r Hne Ho _ Hr.
    rewrite JsMap_get_set_ne, Ho by done.
    rewrite insert_insert_eq, lookup_insert_ne; [done | lia].
Qed.

Lemma slice_from_last (l : list Msg) (n : Z) :
  (0 < n)%Z ->
  slice_from l (- inject_Z n)%Q = skipn (List.length l - Z.to_nat n) l.
Proof.
  intros Hn. unfold slice_from, slice.
  rewrite (ToIntegerOrInfinity_integer (- inject_Z n)%Q (- n)%Z)
    by (rewrite <- inject_Z_opp; reflexivity).
  rewrite (ToIntegerOrInfinity_integer _ _ (Qeq_refl _)).
  unfold relativeIndex.
  destruct (Z.ltb_spec (- n) 0) as [_|]; [|lia].
  destruct (Z.ltb_spec (Z.of_nat (List.length l)) 0) as [|_]; [lia |].
  rewrite Z.min_id.
  replace (Z.to_nat (Z.max (Z.of_nat (List.length l) + - n) 0))
    with (List.length l - Z.to_nat n) by lia.
  apply take_ge. rewrite length_drop. lia.
Qed.

Lemma slice_from_zero (l : list Msg) : slice_from l (- 0)%Q = l.
Proof.
  unfold slice_from, slice.
  rewrite (ToIntegerOrInfinity_integer (- 0)%Q 0%Z) by reflexivity.
  rewrite (ToIntegerOrInfinity_integer _ _ (Qeq_refl _)).
  unfold relativeIndex. simpl.
  destruct (Z.ltb_spec (Z.of_nat (List.length l)) 0) as [|_]; [lia |].
  rewrite Z.min_id, Z.min_l by lia. simpl.
  apply take_ge. lia.
Qed.

Lemma read_fresh (items : list Msg) (h : Heap Msg) :
  read (next h) {| arrays := <[next h := items]> (arrays h); next := S (next h) |}
  = items.
Proof. unfold read. simpl. by rewrite lookup_insert_eq. Qed.

Lemma read_old (r : ref) (items : list Msg) (h : Heap Msg) :
  r < next h ->
  read r {| arrays := <[next h := items]> (arrays h); next := S (next h) |}
  = read r h.
Proof. intros Hr. unfold read. simpl. rewrite lookup_insert_ne; [done | lia]. Qed.

(** X28: [trimMemory(sessionId, n)] with a whole [n > 0] leaves the
    session with its last [n] messages, all of them when there are no more
    than [n]. With [n = 0] nothing is trimmed: the session keeps every
    message. The trimmed messages go into a new array, so whoever holds the
    old one still sees the full history. *)
Theorem memory_trim (sessionId : string) (n : Z)
    (memory : InMemoryMemoryService.t) (h : Heap Msg) :
  ((0 < n)%Z ->
   let memory' := fst (trimMemory sessionId (inject_Z n) memory h) in
   let h' := snd (trimMemory sessionId (inject_Z n) memory h) in
   contents sessionId memory' h'
   = skipn (List.length (contents sessionId memory h) - Z.to_nat n)
       (contents sessionId memory h)
   /\ getMemorySize sessionId memory' h' <= Z.to_nat n
   /\ (forall r, JsMap.get sessionId memory = Some r -> r < next h ->
         read r h' = read r h))
  /\ contents sessionId (fst (trimMemory sessionId 0%Q memory h))
       (snd (trimMemory sessionId 0%Q memory h))
     = contents sessionId memory h.
Proof.
  split.
  - intros Hn memory' h'. unfold memory', h', getMemorySize.
    unfold trimMemory, stored_or_new, contents, alloc.
    destruct (JsMap.get sessionId memory) as [r0|] eqn:G.
    + destruct (num_gt (inject_Z (Z.of_nat (List.length (read r0 h)))) (inject_Z n))
        eqn:E; cbn [fst snd].
      * rewrite JsMap_get_set_eq, read_fresh, slice_from_last by done.
        split; [done |]. split; [rewrite length_drop; lia |].
        intros r [= <-] Hr. by apply read_old.
      * assert (~ (inject_Z n < inject_Z (Z.of_nat (List.length (read r0 h))))%Q) as Hle.
        { intros Hlt. apply num_gt_spec in Hlt. congruence. }
        rewrite <- Zlt_Qlt in Hle.
        replace (List.length (read r0 h) - Z.to_nat n) with 0 by lia.
        rewrite ?G. split; [reflexivity |]. split; [lia | done].
    + rewrite read_fresh. cbn [List.length].
      destruct (num_gt (inject_Z (Z.of_nat 0)) (inject_Z n)) eqn:E; cbn [fst snd].
      * apply num_gt_spec in E. rewrite <- Zlt_Qlt in E. lia.
      * rewrite ?G. split; [reflexivity |]. split; [simpl; lia | done].
  - unfold trimMemory, stored_or_new, contents, alloc.
    destruct (JsMap.get sessionId memory) as [r0|] eqn:G.
    + destruct (num_gt (inject_Z (Z.of_nat (List.length (read r0 h)))) 0%Q) eqn:E;
        cbn [fst snd].
      * rewrite JsMap_get_set_eq, read_fresh. apply slice_from_zero.
      * by rewrite ?G.
    + rewrite read_fresh. cbn [List.length].
      destruct (num_gt (inject_Z (Z.of_nat 0)) 0%Q) eqn:E; cbn [fst snd]; [|by rewrite ?G].
      by vm_compute in E.
Qed.

End MemoryService.

Lemma supervisor_loop_is_uncapped_witness :
  let s :=
    MultiAgentNodes.steps MoreSamples.naming_llm MoreSamples.show_number
      MoreSamples.coder_graph
      [MultiAgentNodes.Supervisor; MultiAgentNodes.Worker "Coder";
       MultiAgentNodes.Supervisor]
      (MultiAgentNodes.initial_state MoreSamples.coder_graph "t0" "write code") in
  MultiAgentGraph.routeWork Samples.show (MultiAgentNodes.routing_view s)
    MoreSamples.coder_graph = "Coder".
Proof.
  intros s.
  destruct (supervisor_loop_is_uncapped MoreSamples.naming_llm MoreSamples.show_number
              Samples.show MoreSamples.coder_graph
              [MultiAgentNodes.Supervisor; MultiAgentNodes.Worker "Coder";
               MultiAgentNodes.Supervisor]
              (MultiAgentNodes.initial_state MoreSamples.coder_graph "t0" "write code")
              "t0" "write code") as [_ H].
  apply (H ltac:(reflexivity) [] "Coder" []).
  - reflexivity.
  - intros x [].
  - exists "ask the ", "". reflexivity.
Defined.

Lemma review_asks_for_revision_witness :
  HITLAgentGraph.processApproval
    (AgentStateAnnotation.reduce
       (HITLAgentGraph.processHumanFeedback "t1" MoreSamples.blank_state
          HITLAgentGraph.approved None)
       (HITLAgentGraph.humanReviewNode
          (HITLAgentGraph.processHumanFeedback "t1" MoreSamples.blank_state
             HITLAgentGraph.approved None)))
  = "needs_revision"
  /\ HITLAgentGraph.meta "pendingPlan"
       (AgentStateAnnotation.reduce MoreSamples.blank_state
          (HITLAgentGraph.humanReviewNode MoreSamples.blank_state))
     = JsString "No plan generated".
Proof.
  split.
  - apply (review_asks_for_revision unit "t1"
             (HITLAgentGraph.processHumanFeedback "t1" MoreSamples.blank_state
                HITLAgentGraph.approved None) HITLAgentGraph.approved None).
  - destruct (review_asks_for_revision unit "t1" MoreSamples.blank_state
                HITLAgentGraph.approved None) as (_ & _ & _ & _ & H).
    apply H. apply lookup_empty.
Defined.


Lemma memory_addMessage_appends_witness :
  let memory' :=
    fst (InMemoryMemoryService.addMessage "s-1" "d" MoreSamples.shared_memory
           MoreSamples.shared_heap) in
  let h' :=
    snd (InMemoryMemoryService.addMessage "s-1" "d" MoreSamples.shared_memory
           MoreSamples.shared_heap) in
  InMemoryMemoryService.contents "s-2" memory' h' = ["a"; "b"; "c"; "d"].
Proof.
  intros memory' h'.
  destruct (memory_addMessage_appends string "s-1" "s-2" "d" MoreSamples.shared_memory
              MoreSamples.shared_heap) as (_ & _ & H & _).
  unfold memory', h'. rewrite (H 0); [|reflexivity | reflexivity].
  unfold InMemoryMemoryService.contents, InMemoryMemoryService.read. simpl.
  by rewrite lookup_insert_eq.
Defined.

Lemma memory_trim_witness :
  InMemoryMemoryService.contents "s-1"
    (fst (InMemoryMemoryService.trimMemory "s-1" (inject_Z 1) MoreSamples.shared_memory
            MoreSamples.shared_heap))
    (snd (InMemoryMemoryService.trimMemory "s-1" (inject_Z 1) MoreSamples.shared_memory
            MoreSamples.shared_heap))
  = ["c"]
  /\ InMemoryMemoryService.read 0
       (snd (InMemoryMemoryService.trimMemory "s-1" (inject_Z 1) MoreSamples.shared_memory
               MoreSamples.shared_heap))
     = InMemoryMemoryService.read 0 MoreSamples.shared_heap.
Proof.
  destruct (memory_trim string "s-1" 1 MoreSamples.shared_memory MoreSamples.shared_heap)
    as [H _].
  destruct H as (Hc & _ & Hold); [lia |].
  split.
  - rewrite Hc.
    unfold InMemoryMemoryService.contents, InMemoryMemoryService.read. simpl.
    by rewrite lookup_insert_eq.
  - apply Hold; [reflexivity | simpl; lia].
Defined.

Section SupervisorNodes.
Import AgentStateAnnotation MultiAgentNodes.

Variable invoke :
  list MultiAgentGraph.BaseMessage -> Completion MultiAgentGraph.BaseMessage.
Variable Number_toString : number -> string.

(** X29: the nodes of the supervisor graph turn failures into state. A
    worker that throws leaves [error] alone: its message is stored under
    the worker's name in the tool results, beside the results of the other
    workers, with the status [failed]; a worker that returns has its result
    stored there with the status [success]; only a worker that is not
    registered sets [error]. The supervisor node adds the model's reply,
    and not its own prompt, to the messages, or sets [error] when the
    model throws. *)
Theorem supervisor_nodes_capture_failures (g : MultiAgentGraph.t) (w : string) (s : State) :
  (JsMap.get w (MultiAgentGraph.workers g) = None ->
   let s' := step invoke Number_toString g (Worker w) s in
   error s' = Some ("Worker " +:+ w +:+ " not found") /\ toolResults s' = toolResults s)
  /\ (forall worker msg,
         JsMap.get w (MultiAgentGraph.workers g) = Some worker ->
         MultiAgentGraph.run worker (query s) = Throw (Error msg) ->
         let s' := step invoke Number_toString g (Worker w) s in
         error s' = error s
         /\ toolResults s' !! w = Some (JsObject [("error", JsString msg)])
         /\ metadata s' !! "workerStatus" = Some (JsString "failed")
         /\ (forall k, k <> w -> toolResults s' !! k = toolResults s !! k))
  /\ (forall worker result,
         JsMap.get w (MultiAgentGraph.workers g) = Some worker ->
         MultiAgentGraph.run worker (query s) = Normal result ->
         let s' := step invoke Number_toString g (Worker w) s in
         error s' = error s
         /\ toolResults s' !! w = Some result
         /\ metadata s' !! "workerStatus" = Some (JsString "success")
         /\ (forall k, k <> w -> toolResults s' !! k = toolResults s !! k))
  /\ (forall response,
         invoke (messages s ++ [HumanMessage (supervisorPrompt Number_toString g s)])%list
         = Normal response ->
         let s' := step invoke Number_toString g Supervisor s in
         messages s' = (messages s ++ [response])%list
         /\ error s' = error s
         /\ metadata s' !! "supervisorDecision" = Some (MultiAgentGraph.content response))
  /\ (forall msg,
         invoke (messages s ++ [HumanMessage (supervisorPrompt Number_toString g s)])%list
         = Throw (Error msg) ->
         let s' := step invoke Number_toString g Supervisor s in
         messages s' = messages s /\ error s' = Some msg).
Proof.
  split; [|split; [|split; [|split]]].
  - intros H. simpl. unfold workerNode. by rewrite H.
  - intros worker msg Hw Hr. simpl. unfold workerNode. rewrite Hw, Hr. simpl.
    split; [done |]. split.
    { erewrite lookup_union_Some_l; [done | by rewrite lookup_insert_eq]. }
    split.
    { erewrite lookup_union_Some_l; [done | by rewrite lookup_insert_eq]. }
    intros k Hk. rewrite lookup_union, lookup_insert_ne by done.
    by destruct (toolResults s !! k).
  - intros worker result Hw Hr. simpl. unfold workerNode. rewrite Hw, Hr. simpl.
    split; [done |]. split.
    { erewrite lookup_union_Some_l; [done | by rewrite lookup_insert_eq]. }
    split.
    { erewrite lookup_union_Some_l; [done | by rewrite lookup_insert_eq]. }
    intros k Hk. rewrite lookup_union, lookup_insert_ne by done.
    by destruct (toolResults s !! k).
  - intros response H. simpl. unfold supervisorNode. rewrite H. simpl.
    split; [done |]. split; [done |].
    erewrite lookup_union_Some_l; [done | by rewrite lookup_insert_eq].
  - intros msg H. simpl. unfold supervisorNode. rewrite H. done.
Qed.

End SupervisorNodes.

Section Wiring.
Import MultiAgentWiring.

Lemma registerWorkers_workflow (regs : list (string * MultiAgentGraph.WorkerAgent)) (w : t) :
  workflow (registerWorkers regs w) = workflow w.
Proof.
  revert w. induction regs as [|reg regs IH]; intros w; [done |].
  simpl. by rewrite IH.
Qed.

(** X30: the workflow is built in the constructor, before any worker can
    be registered, and [registerWorker] does not rebuild it. However many
    workers are registered, the workflow keeps the supervisor as its only
    node and [end] as its only route; so whenever [routeWork] answers with
    a worker, that answer is not among the routes of the graph. *)
Theorem workers_are_never_wired (JSON_stringify : JsValue -> string)
    (maxIterations0 : option number)
    (regs : list (string * MultiAgentGraph.WorkerAgent))
    (state : MultiAgentGraph.AgentState) :
  let w := registerWorkers regs (new maxIterations0) in
  nodes (workflow w) = ["supervisor"]
  /\ edges (workflow w) = [(START, "supervisor")]
  /\ routeOptions (workflow w) = {["end" := END_]}
  /\ (MultiAgentGraph.routeWork JSON_stringify state (graph w) <> "end" ->
      routeOptions (workflow w)
      !! MultiAgentGraph.routeWork JSON_stringify state (graph w) = None).
Proof.
  intros w. unfold w. rewrite registerWorkers_workflow. simpl.
  split; [done |]. split; [done |]. split; [done |].
  intros Hne. by rewrite lookup_singleton_ne.
Qed.

End Wiring.

Lemma supervisor_nodes_capture_failures_witness :
  let g :=
    MultiAgentGraph.registerWorker "Breaker"
      {| MultiAgentGraph.run := fun _ => Throw (Error "no disk") |}
      MoreSamples.coder_graph in
  let s := MultiAgentNodes.initial_state g "t0" "write code" in
  let s' :=
    MultiAgentNodes.step MoreSamples.naming_llm MoreSamples.show_number g
      (MultiAgentNodes.Worker "Breaker") s in
  AgentStateAnnotation.error s' = None
  /\ AgentStateAnnotation.toolResults s' !! "Breaker"
     = Some (JsObject [("error", JsString "no disk")]).
Proof.
  intros g s s'.
  destruct (supervisor_nodes_capture_failures MoreSamples.naming_llm
              MoreSamples.show_number g "Breaker" s) as (_ & H & _).
  destruct (H {| MultiAgentGraph.run := fun _ => Throw (Error "no disk") |} "no disk")
    as (He & Ht & _); [reflexivity | reflexivity |].
  split; [exact He | exact Ht].
Defined.

Lemma workers_are_never_wired_witness :
  let w :=
    MultiAgentWiring.registerWorkers [("Coder", Samples.idle_worker)]
      (MultiAgentWiring.new None) in
  let state :=
    {| MultiAgentGraph.messages :=
         [ {| MultiAgentGraph.content := JsString "Ask the Coder" |} ];
       MultiAgentGraph.query := "q"; MultiAgentGraph.iterations := Some 0%Q;
       MultiAgentGraph.error := None; MultiAgentGraph.output := None |} in
  MultiAgentGraph.routeWork Samples.show state (MultiAgentWiring.graph w) = "Coder"
  /\ MultiAgentWiring.routeOptions (MultiAgentWiring.workflow w) !! "Coder" = None.
Proof.
  intros w state.
  destruct (workers_are_never_wired Samples.show None [("Coder", Samples.idle_worker)] state)
    as (_ & _ & _ & H).
  split; [reflexivity |]. apply H. discriminate.
Defined.
